(** * UTG_BOX: the plugin manager and the plugin base class

    A shallow embedding of [core/plugin-manager.ts] (class [PluginManager],
    [isPluginFile]) and [core/base-plugin.ts] (class [BasePlugin]) with the
    properties of the plugin lifecycle and of the routing of messages.

    Conventions of the embedding:
    - a JavaScript string is the list of its UTF-16 code units;
    - a [Map] is an association list in insertion order, as iteration over a
      JavaScript [Map] observes it;
    - an [async] method of the manager is a function of the registry state
      that returns either a value or the thrown error, with the state as
      it stands at that point (nothing is rolled back implicitly);
    - code that lives outside the repository (the file system, dynamic
      [import], the plugin classes, the dispatcher) is described by a
      [World] of answers and by the behaviour fields of a plugin instance;
      every call made to it is appended to the [trace] of the state. *)

From Stdlib Require Import List String Ascii NArith Bool Arith Lia DecimalString.
From Stdlib Require Import DecimalPos DecimalN.
Import ListNotations.

Set Implicit Arguments.

(* ================================================================== *)
(** ** JavaScript strings *)
(* ================================================================== *)

Module JsString.

(** A string is its sequence of UTF-16 code units. *)
Definition t : Type := list N.

(** A literal, written with the characters of a Rocq string (one code unit
    per character). *)
Definition lit (s : string) : t := map N_of_ascii (list_ascii_of_string s).

Fixpoint eqb (a b : t) : bool :=
  match a, b with
  | [], [] => true
  | x :: a', y :: b' => N.eqb x y && eqb a' b'
  | _, _ => false
  end.

(** ECMAScript [WhiteSpace] and [LineTerminator]: the characters that
    [String.prototype.trim] strips and that [\s] matches ([\S] is the
    complement). *)
Definition isWhiteSpace (c : N) : bool :=
  (c =? 0x09)%N || (c =? 0x0A)%N || (c =? 0x0B)%N || (c =? 0x0C)%N ||
  (c =? 0x0D)%N || (c =? 0x20)%N || (c =? 0xA0)%N || (c =? 0x1680)%N ||
  ((0x2000 <=? c)%N && (c <=? 0x200A)%N) ||
  (c =? 0x2028)%N || (c =? 0x2029)%N || (c =? 0x202F)%N ||
  (c =? 0x205F)%N || (c =? 0x3000)%N || (c =? 0xFEFF)%N.

Fixpoint trimStart (s : t) : t :=
  match s with
  | [] => []
  | c :: s' => if isWhiteSpace c then trimStart s' else s
  end.

Definition trimEnd (s : t) : t := rev (trimStart (rev s)).

(** [s.trim()] *)
Definition trim (s : t) : t := trimEnd (trimStart s).

(** [s.startsWith(p)] *)
Fixpoint startsWith (s p : t) : bool :=
  match p, s with
  | [], _ => true
  | _ :: _, [] => false
  | y :: p', x :: s' => N.eqb x y && startsWith s' p'
  end.

(** [s.endsWith(p)] *)
Definition endsWith (s p : t) : bool := startsWith (rev s) (rev p).

(** The scanner behind [s.match(/\S+/g)]: [cur] holds, reversed, the
    characters of the match under way; a match is as long as it can be and
    the search resumes after it. *)
Fixpoint scanNonSpace (cur s : t) : list t :=
  match s with
  | [] => match cur with [] => [] | _ :: _ => [rev cur] end
  | c :: s' =>
      if isWhiteSpace c
      then match cur with
           | [] => scanNonSpace [] s'
           | _ :: _ => rev cur :: scanNonSpace [] s'
           end
      else scanNonSpace (c :: cur) s'
  end.

(** [s.match(/\S+/g)]: every match in order, or [null] when there is none. *)
Definition matchNonSpace (s : t) : option (list t) :=
  match scanNonSpace [] s with
  | [] => None
  | m :: ms => Some (m :: ms)
  end.

(** What the specification calls the whitespace-delimited tokens of a text,
    defined on its own: cut the text at every whitespace character and keep
    the pieces that are not empty. *)
Fixpoint splitAtSpaces (s : t) : list t :=
  match s with
  | [] => [[]]
  | c :: s' =>
      if isWhiteSpace c then [] :: splitAtSpaces s'
      else match splitAtSpaces s' with
           | [] => [[c]]
           | p :: ps => (c :: p) :: ps
           end
  end.

Definition nonEmpty (s : t) : bool :=
  match s with [] => false | _ :: _ => true end.

Definition whitespaceTokens (s : t) : list t := filter nonEmpty (splitAtSpaces s).

(** [String(n)] for a non-negative integer. *)
Definition ofNumber (n : N) : t := lit (NilZero.string_of_uint (N.to_uint n)).

End JsString.

Abbreviation jsstring := JsString.t.
Abbreviation js := JsString.lit.

(** [fileName] is a plugin file: a [.ts], [.js] or [.mjs] file that is not
    a [.d.ts] declaration file. *)
Definition isPluginFile (fileName : jsstring) : bool :=
  if JsString.endsWith fileName (js ".d.ts") then false
  else JsString.endsWith fileName (js ".ts") ||
       JsString.endsWith fileName (js ".js") ||
       JsString.endsWith fileName (js ".mjs").

(* ================================================================== *)
(** ** The command prefixes of the configuration ([config/env.ts]) *)
(* ================================================================== *)

(** [s.split(sep)] for a separator of one code unit: the pieces between
    the separators, empty pieces included; the empty string gives one
    empty piece. *)
Fixpoint splitAt (sep : N) (s : jsstring) : list jsstring :=
  match s with
  | [] => [[]]
  | c :: s' =>
      if (c =? sep)%N then [] :: splitAt sep s'
      else match splitAt sep s' with
           | [] => [[c]]
           | p :: ps => (c :: p) :: ps
           end
  end.

(** [pieces.join(sep)] *)
Fixpoint joinWith (sep : N) (pieces : list jsstring) : jsstring :=
  match pieces with
  | [] => []
  | [p] => p
  | p :: ps => p ++ sep :: joinWith sep ps
  end.

(** The code unit of the comma. *)
Definition comma : N := 44.

(** [(process.env.COMMAND_PREFIXES ?? "/").split(",").map((value) =>
    value.trim()).filter(Boolean)], with [None] for a variable that is
    not set. *)
Definition parseCommandPrefixes (value : option jsstring) : list jsstring :=
  filter JsString.nonEmpty
    (map JsString.trim
       (splitAt comma (match value with Some v => v | None => js "/" end))).

(* ================================================================== *)
(** ** JavaScript maps *)
(* ================================================================== *)

(** A [Map<string, V>]: the entries in insertion order, one per key.
    [set] on a key that is present replaces the value in place, as in
    JavaScript, and [values] lists the values in insertion order. *)
Module JsMap.
Section WithValues.
Variable V : Type.

Definition t : Type := list (jsstring * V).

Definition empty : t := [].

Fixpoint get (k : jsstring) (m : t) : option V :=
  match m with
  | [] => None
  | (k', v) :: m' => if JsString.eqb k k' then Some v else get k m'
  end.

Definition has (k : jsstring) (m : t) : bool :=
  match get k m with Some _ => true | None => false end.

Fixpoint set (k : jsstring) (v : V) (m : t) : t :=
  match m with
  | [] => [(k, v)]
  | (k', v') :: m' =>
      if JsString.eqb k k' then (k, v) :: m' else (k', v') :: set k v m'
  end.

Definition delete (k : jsstring) (m : t) : t :=
  filter (fun kv => negb (JsString.eqb k (fst kv))) m.

Definition keys (m : t) : list jsstring := map fst m.

Definition values (m : t) : list V := map snd m.

End WithValues.
End JsMap.

Arguments JsMap.empty {V}.

(* ================================================================== *)
(** ** Errors and results *)
(* ================================================================== *)

(** How a call into code outside the repository ends: it returns (its
    promise is fulfilled) or it throws (its promise is rejected). *)
Inductive Settled (A : Type) : Type :=
| Fulfilled (value : A)
| Rejected (reason : jsstring).

Arguments Fulfilled {A} value.
Arguments Rejected {A} reason.

(** The errors a method of the manager can end with: one constructor per
    [throw new Error(...)] of the source, the [TypeError] of [new] applied
    to a value that cannot be constructed, and [Foreign] for an error that
    external code threw and the manager lets through. *)
Inductive Error : Type :=
| PluginNotFound (name : jsstring)
| SystemPluginCannotBeUnloaded (name : jsstring)
| InvalidPluginFile (fileName : jsstring)
| PluginFileHasNoExport (filePath : jsstring)
| PluginMustExtendBasePlugin (filePath : jsstring)
| DuplicatePluginName (name : jsstring)
| NotAConstructor
| Foreign (reason : jsstring).

(** The message of each error, as the template strings of the source
    build it. *)
Definition message (e : Error) : jsstring :=
  match e with
  | PluginNotFound name => js "Plugin not found: " ++ name
  | SystemPluginCannotBeUnloaded name => js "System plugin cannot be unloaded: " ++ name
  | InvalidPluginFile fileName => js "Invalid plugin file: " ++ fileName
  | PluginFileHasNoExport filePath => js "Plugin file has no export: " ++ filePath
  | PluginMustExtendBasePlugin filePath => js "Plugin must extend BasePlugin: " ++ filePath
  | DuplicatePluginName name => js "Duplicate plugin name: " ++ name
  | NotAConstructor => js "PluginCtor is not a constructor"
  | Foreign reason => reason
  end.

Inductive Result (A : Type) : Type :=
| Ok (value : A)
| Throw (error : Error).

Arguments Ok {A} value.
Arguments Throw {A} error.

Definition settle {A} (s : Settled A) : Result A :=
  match s with
  | Fulfilled v => Ok v
  | Rejected reason => Throw (Foreign reason)
  end.

(* ================================================================== *)
(** ** Messages and the plugin base class *)
(* ================================================================== *)

(** The part of mtcute's [MessageContext] that the routing reads. *)
Record MessageContext : Type := {
  messageId : N;
  text : option jsstring;
  isOutgoing : bool
}.

(** The configuration ([config/env.ts]) as far as the plugins read it. *)
Record Env : Type := {
  COMMAND_PREFIXES : list jsstring
}.

Inductive PluginScope : Type := new_message | edit_message | both.

(** mtcute's [PropagationAction]. *)
Inductive PropagationAction : Type := Stop | StopChildren | Continue | ToScene.

(** A call of one of the two abstract methods a plugin implements. *)
Inductive Call : Type :=
| CallHandlerCommand (message : MessageContext) (command : jsstring) (args : list jsstring)
| CallHandleMessage (message : MessageContext).

(** A computation of the routing layer: the calls it made into the plugin,
    in order, and how it ended. *)
Definition Routed (A : Type) : Type := (list Call * Result A)%type.

Definition routedBind {A B} (m : Routed A) (f : A -> Routed B) : Routed B :=
  match m with
  | (calls, Ok a) => let (calls', r) := f a in (calls ++ calls', r)
  | (calls, Throw e) => (calls, Throw e)
  end.

Definition calls {A} (m : Routed A) : list Call := fst m.
Definition outcome {A} (m : Routed A) : Result A := snd m.

Module BasePlugin.

(** An instance of a concrete plugin class: the four abstract properties,
    and what its methods do when the manager or the routing calls them. *)
Record t : Type := {
  command : option jsstring;
  name : jsstring;
  description : jsstring;
  scope : PluginScope;
  handlerCommand : MessageContext -> jsstring -> list jsstring -> Settled unit;
  handleMessage : MessageContext -> Settled unit;
  onLoad : Settled unit;
  onUnload : Settled unit
}.

(** [prefix + this.command]: string concatenation turns [null] into the
    four characters [null]. *)
Definition concatCommand (prefix : jsstring) (command : option jsstring) : jsstring :=
  prefix ++ match command with Some c => c | None => js "null" end.

(** [message.text ?? ''] *)
Definition rawText (message : MessageContext) : jsstring :=
  match text message with
  | Some s => s
  | None => []
  end.

(** [message.text?.trim() ?? ''] *)
Definition trimmedText (message : MessageContext) : jsstring :=
  match text message with
  | Some s => JsString.trim s
  | None => []
  end.

Section WithEnv.
Variable env : Env.

Definition isCommand (this : t) (message : MessageContext) : bool :=
  existsb
    (fun prefix => JsString.startsWith (trimmedText message) (concatCommand prefix (command this)))
    (COMMAND_PREFIXES env).

Definition doHandlerMessage (this : t) (message : MessageContext) : Routed unit :=
  if negb (isCommand this message) && negb (isOutgoing message)
  then ([CallHandleMessage message], settle (handleMessage this message))
  else ([], Ok tt).

(** [text.match(/\S+/g) ?? []] *)
Definition tokensOf (message : MessageContext) : list jsstring :=
  match JsString.matchNonSpace (trimmedText message) with
  | Some tokens => tokens
  | None => []
  end.

Definition doHandlerCommand (this : t) (message : MessageContext) : Routed unit :=
  let tokens := tokensOf message in
  let subCommand := nth_error tokens 1 in
  let args := skipn 2 tokens in
  if isOutgoing message
  then ([CallHandlerCommand message (match subCommand with Some s => s | None => [] end) args],
        settle (handlerCommand this message
                  (match subCommand with Some s => s | None => [] end) args))
  else ([], Ok tt).

Definition invokeHandlerMessage (plugin : t) (message : MessageContext)
  : Routed PropagationAction :=
  routedBind (doHandlerMessage plugin message) (fun _ => ([], Ok Continue)).

Definition invokeHandlerCommand (plugin : t) (message : MessageContext)
  : Routed PropagationAction :=
  routedBind (doHandlerCommand plugin message) (fun _ => ([], Ok Continue)).

End WithEnv.
End BasePlugin.

(* ================================================================== *)
(** ** The dispatcher, plugin records, modules and the outside world *)
(* ================================================================== *)

Inductive PluginKind : Type := system | user.

(** The [name] of an [UpdateHandler]: the kind of update it receives. *)
Inductive UpdateName : Type := update_new_message | update_edit_message.

(** The filter that [filters.command(command, {prefixes})] returns, kept
    as the data it was built from: mtcute evaluates it. *)
Record CommandFilter : Type := {
  filterCommand : jsstring;
  filterPrefixes : list jsstring
}.

(** An [UpdateHandler] object. Two handler objects are the same object
    when they have the same [ident]; a new object gets the next unused one. *)
Record UpdateHandler : Type := {
  ident : nat;
  updateName : UpdateName;
  callback : MessageContext -> Routed PropagationAction;
  check : option CommandFilter
}.

(** An element of [PluginRecord["handlerIds"]]. *)
Record HandlerEntry : Type := {
  handler : UpdateHandler;
  group : option nat
}.

Module PluginRecord.
Record t : Type := {
  name : jsstring;
  filePath : jsstring;
  kind : PluginKind;
  handlerIds : list HandlerEntry;
  instance : BasePlugin.t
}.
End PluginRecord.

Record LoadOptions : Type := {
  forceReload : option bool
}.

(** [options.forceReload] used as a condition. *)
Definition isForced (options : LoadOptions) : bool :=
  match forceReload options with Some b => b | None => false end.

(** What [new PluginCtor(context)] evaluates to when it returns: an object
    that is an instance of [BasePlugin], or one that is not. *)
Inductive Instance : Type :=
| OtherObject
| PluginInstance (plugin : BasePlugin.t).

(** The values an export of a plugin file can have, as far as
    [loadFromFile] tells them apart. A class is given by what constructing
    it does. *)
Inductive JsValue : Type :=
| JsUndefined
| JsNull
| JsBoolean (b : bool)
| JsText (s : jsstring)
| JsObject
| JsClass (construct : Settled Instance).

(** [!!v] *)
Definition truthy (v : JsValue) : bool :=
  match v with
  | JsUndefined | JsNull => false
  | JsBoolean b => b
  | JsText s => JsString.nonEmpty s
  | JsObject | JsClass _ => true
  end.

(** [a ?? b] *)
Definition coalesce (a b : JsValue) : JsValue :=
  match a with
  | JsUndefined | JsNull => b
  | _ => a
  end.

(** The namespace object of an imported module: its [default] export and
    its export named [Plugin] ([JsUndefined] for one it does not have). *)
Record ModuleNamespace : Type := {
  default : JsValue;
  Plugin : JsValue
}.

(** A [Dirent] of [fs.readdir(dir, {withFileTypes: true})]. *)
Record Dirent : Type := {
  entryName : jsstring;
  isFile : bool
}.

(** The answers of the code outside the repository during one operation
    of the manager: [node:fs/promises], [node:path], [node:url], dynamic
    [import], the clock, and mtcute's [filters.command]. The latter
    compiles the keyword as the source of a regular expression: it returns
    the filter, or throws the [SyntaxError] of [new RegExp] for a keyword
    that is no regular expression, such as [c++]. *)
Record World : Type := {
  filtersCommand : jsstring -> list jsstring -> Settled unit;
  mkdir : jsstring -> Settled unit;
  access : jsstring -> Settled unit;
  readdir : jsstring -> Settled (list Dirent);
  copyFile : jsstring -> jsstring -> Settled unit;
  dynamicImport : jsstring -> Settled ModuleNamespace;
  basename : jsstring -> jsstring;
  join : jsstring -> jsstring -> jsstring;
  pathToFileURL : jsstring -> jsstring;
  now : N
}.

(** The calls that leave the manager, as the [trace] records them. *)
Inductive Effect : Type :=
| FsMkdir (dir : jsstring)
| FsAccess (dir : jsstring)
| FsReaddir (dir : jsstring)
| FsCopyFile (source target : jsstring)
| DynamicImport (moduleUrl : jsstring)
| New (PluginCtor : JsValue)
| CallOnLoad (plugin : jsstring)
| CallOnUnload (plugin : jsstring)
| AddUpdateHandler (handlerIdent : nat)
| RemoveUpdateHandler (handlerIdent : nat).

(** The state the manager works on: its two private maps, the handlers
    registered with the dispatcher of the shared context (each with the
    group it was added to), the next unused handler identity, and the
    trace of external calls so far, oldest first. *)
Record State : Type := {
  plugins : JsMap.t PluginRecord.t;
  pluginsByFile : JsMap.t PluginRecord.t;
  dispatcher : list (nat * UpdateHandler);
  nextIdent : nat;
  trace : list Effect
}.

(* ================================================================== *)
(** ** The monad of the manager's methods *)
(* ================================================================== *)

Definition M (A : Type) : Type := State -> Result A * State.

Definition ret {A} (a : A) : M A := fun st => (Ok a, st).

Definition bind {A B} (m : M A) (f : A -> M B) : M B :=
  fun st =>
    match m st with
    | (Ok a, st') => f a st'
    | (Throw e, st') => (Throw e, st')
    end.

Definition throw {A} (e : Error) : M A := fun st => (Throw e, st).

(** [try { m } catch (error) { h error }] *)
Definition tryCatch {A} (m : M A) (h : Error -> M A) : M A :=
  fun st =>
    match m st with
    | (Ok a, st') => (Ok a, st')
    | (Throw e, st') => h e st'
    end.

Definition gets {A} (f : State -> A) : M A := fun st => (Ok (f st), st).

Definition modify (f : State -> State) : M unit := fun st => (Ok tt, f st).

Definition emit (e : Effect) : M unit :=
  modify (fun st =>
    {| plugins := plugins st; pluginsByFile := pluginsByFile st;
       dispatcher := dispatcher st; nextIdent := nextIdent st;
       trace := trace st ++ [e] |}).

Declare Scope manager_scope.
Delimit Scope manager_scope with manager.
Notation "x <- c1 ;; c2" := (bind c1 (fun x => c2))
  (at level 61, c1 at next level, right associativity) : manager_scope.
Notation "c1 ;; c2" := (bind c1 (fun _ => c2))
  (at level 61, right associativity) : manager_scope.

(** [await] of an external call: the call is recorded, then its result is
    the value or the thrown error. *)
Definition await {A} (e : Effect) (s : Settled A) : M A :=
  (emit e ;; fun st => (settle s, st))%manager.

(** [for (const x of xs) { body x }] over a list that the body does not
    change. *)
Fixpoint forEach {A} (xs : list A) (body : A -> M unit) : M unit :=
  match xs with
  | [] => ret tt
  | x :: xs' => (body x ;; forEach xs' body)%manager
  end.

(* ================================================================== *)
(** ** The dispatcher of the shared context *)
(* ================================================================== *)

(** Modelled from the spec: the Event Subscription Port, which is mtcute's
    [Dispatcher] and not part of the repository. [addUpdateHandler(handler)]
    subscribes the handler object in the default group 0, after the
    handlers already there; [removeUpdateHandler(handler, group)] takes
    that very object out of the group ([group] defaults to 0) and does
    nothing when it is not there. Neither call throws. *)
Definition defaultGroup (group : option nat) : nat :=
  match group with Some g => g | None => 0 end.

Fixpoint removeFromGroup (g i : nat) (d : list (nat * UpdateHandler))
  : list (nat * UpdateHandler) :=
  match d with
  | [] => []
  | (g', h) :: d' =>
      if (g' =? g) && (ident h =? i) then d'
      else (g', h) :: removeFromGroup g i d'
  end.

Definition addUpdateHandler (h : UpdateHandler) : M unit :=
  (emit (AddUpdateHandler (ident h)) ;;
   modify (fun st =>
     {| plugins := plugins st; pluginsByFile := pluginsByFile st;
        dispatcher := dispatcher st ++ [(0, h)]; nextIdent := nextIdent st;
        trace := trace st |}))%manager.

Definition removeUpdateHandler (h : UpdateHandler) (group : option nat) : M unit :=
  (emit (RemoveUpdateHandler (ident h)) ;;
   modify (fun st =>
     {| plugins := plugins st; pluginsByFile := pluginsByFile st;
        dispatcher := removeFromGroup (defaultGroup group) (ident h) (dispatcher st);
        nextIdent := nextIdent st; trace := trace st |}))%manager.

(** The handler object [h] is subscribed (in some group). *)
Definition subscribed (h : UpdateHandler) (st : State) : Prop :=
  In (ident h) (map (fun gh => ident (snd gh)) (dispatcher st)).

(** An object literal [{name, callback, check}]: a new handler object. *)
Definition newUpdateHandler (name : UpdateName)
    (callback : MessageContext -> Routed PropagationAction)
    (check : option CommandFilter) : M UpdateHandler :=
  fun st =>
    (Ok {| ident := nextIdent st; updateName := name;
           callback := callback; check := check |},
     {| plugins := plugins st; pluginsByFile := pluginsByFile st;
        dispatcher := dispatcher st; nextIdent := S (nextIdent st);
        trace := trace st |}).

(* ================================================================== *)
(** ** The plugin manager *)
(* ================================================================== *)

Module PluginManager.

(** [new PluginManager(...)]: both maps empty, nothing subscribed. *)
Definition initial : State :=
  {| plugins := JsMap.empty; pluginsByFile := JsMap.empty;
     dispatcher := []; nextIdent := 0; trace := [] |}.

Definition setPlugins (f : JsMap.t PluginRecord.t -> JsMap.t PluginRecord.t) : M unit :=
  modify (fun st =>
    {| plugins := f (plugins st); pluginsByFile := pluginsByFile st;
       dispatcher := dispatcher st; nextIdent := nextIdent st;
       trace := trace st |}).

Definition setPluginsByFile (f : JsMap.t PluginRecord.t -> JsMap.t PluginRecord.t) : M unit :=
  modify (fun st =>
    {| plugins := plugins st; pluginsByFile := f (pluginsByFile st);
       dispatcher := dispatcher st; nextIdent := nextIdent st;
       trace := trace st |}).

Section WithContext.
Variable env : Env.
Variable systemPluginDir userPluginDir : jsstring.
Variable world : World.

Local Open Scope manager_scope.

(** [if (cond) { const handler = {...}; dispatcher.addUpdateHandler(handler);
    handlerIds.push({handler}); }] *)
Definition registerWhen (cond : bool) (name : UpdateName)
    (callback : MessageContext -> Routed PropagationAction)
    (check : option CommandFilter) (handlerIds : list HandlerEntry)
  : M (list HandlerEntry) :=
  if cond then
    h <- newUpdateHandler name callback check ;;
    addUpdateHandler h ;;
    ret (handlerIds ++ [{| handler := h; group := None |}])
  else ret handlerIds.

(** [filters.command(command, {prefixes: env.COMMAND_PREFIXES})]: the
    filter, or the error thrown. The call reads and changes nothing
    outside, and the trace does not record it. *)
Definition commandFilter (command : jsstring) : M CommandFilter :=
  fun st =>
    (match filtersCommand world command (COMMAND_PREFIXES env) with
     | Fulfilled _ =>
         Ok {| filterCommand := command; filterPrefixes := COMMAND_PREFIXES env |}
     | Rejected reason => Throw (Foreign reason)
     end, st).

(** In the first block the object literal is evaluated, the call of
    [filters.command] in it included, before the handler is added: when
    the call throws, nothing has been added. *)
Definition registerHandlers (instance : BasePlugin.t) : M (list HandlerEntry) :=
  let handlerIds := [] in
  handlerIds <-
    match BasePlugin.command instance with
    | Some command =>
        if JsString.nonEmpty command then
          check <- commandFilter command ;;
          registerWhen true update_new_message
            (BasePlugin.invokeHandlerCommand instance) (Some check) handlerIds
        else ret handlerIds
    | None => ret handlerIds
    end ;;
  let messageHandler := BasePlugin.invokeHandlerMessage env instance in
  handlerIds <-
    registerWhen
      (match BasePlugin.scope instance with
       | new_message | both => true | edit_message => false end)
      update_new_message messageHandler None handlerIds ;;
  handlerIds <-
    registerWhen
      (match BasePlugin.scope instance with
       | edit_message | both => true | new_message => false end)
      update_edit_message messageHandler None handlerIds ;;
  ret handlerIds.

Definition unregisterHandlers (handlerIds : list HandlerEntry) : M unit :=
  forEach handlerIds (fun entry => removeUpdateHandler (handler entry) (group entry)).

(** [new PluginCtor(this.context)] *)
Definition construct (PluginCtor : JsValue) : M Instance :=
  emit (New PluginCtor) ;;
  match PluginCtor with
  | JsClass c => fun st => (settle c, st)
  | _ => throw NotAConstructor
  end.

Definition loadFromFile (filePath : jsstring) (options : LoadOptions)
    (kind : PluginKind) : M unit :=
  let baseUrl := pathToFileURL world filePath in
  let moduleUrl :=
    if isForced options
    then baseUrl ++ js "?t=" ++ JsString.ofNumber (now world)
    else baseUrl in
  mod_ <- await (DynamicImport moduleUrl) (dynamicImport world moduleUrl) ;;
  let PluginCtor := coalesce (default mod_) (Plugin mod_) in
  if negb (truthy PluginCtor) then throw (PluginFileHasNoExport filePath)
  else
    instance <- construct PluginCtor ;;
    match instance with
    | OtherObject => throw (PluginMustExtendBasePlugin filePath)
    | PluginInstance instance =>
        has <- gets (fun st => JsMap.has (BasePlugin.name instance) (plugins st)) ;;
        if has then throw (DuplicatePluginName (BasePlugin.name instance))
        else
          handlerIds <- registerHandlers instance ;;
          tryCatch
            (await (CallOnLoad (BasePlugin.name instance)) (BasePlugin.onLoad instance))
            (fun error => unregisterHandlers handlerIds ;; throw error) ;;
          let record :=
            {| PluginRecord.name := BasePlugin.name instance;
               PluginRecord.filePath := filePath;
               PluginRecord.kind := kind;
               PluginRecord.handlerIds := handlerIds;
               PluginRecord.instance := instance |} in
          setPlugins (JsMap.set (BasePlugin.name instance) record) ;;
          setPluginsByFile (JsMap.set filePath record)
    end.

(** One turn of the loop of [loadDir]. *)
Definition loadEntry (pluginDir : jsstring) (kind : PluginKind)
    (options : LoadOptions) (entry : Dirent) : M unit :=
  if negb (isFile entry) then ret tt
  else if negb (isPluginFile (entryName entry)) then ret tt
  else
    let filePath := join world pluginDir (entryName entry) in
    has <- gets (fun st => JsMap.has filePath (pluginsByFile st)) ;;
    if has then ret tt
    else loadFromFile filePath options kind.

Definition loadDir (pluginDir : jsstring) (kind : PluginKind)
    (options : LoadOptions) : M unit :=
  emit (FsAccess pluginDir) ;;
  let exists_ :=
    match access world pluginDir with
    | Fulfilled _ => true
    | Rejected _ => false
    end in
  if negb exists_ then ret tt
  else
    entries <- await (FsReaddir pluginDir) (readdir world pluginDir) ;;
    forEach entries (loadEntry pluginDir kind options).

(** The body of both unload methods once the record is known. *)
Definition unloadRecord (record : PluginRecord.t) : M unit :=
  unregisterHandlers (PluginRecord.handlerIds record) ;;
  await (CallOnUnload (BasePlugin.name (PluginRecord.instance record)))
        (BasePlugin.onUnload (PluginRecord.instance record)) ;;
  setPlugins (JsMap.delete (PluginRecord.name record)) ;;
  setPluginsByFile (JsMap.delete (PluginRecord.filePath record)).

(** [for (const record of this.plugins.values())]: the iterator of a [Map]
    is live, so an entry deleted before its turn is not visited; the loop
    inserts nothing. *)
Definition unloadUserAll : M unit :=
  entries <- gets (fun st => plugins st) ;;
  forEach entries (fun entry =>
    live <- gets (fun st => JsMap.has (fst entry) (plugins st)) ;;
    if negb live then ret tt
    else
      match PluginRecord.kind (snd entry) with
      | system => ret tt
      | user => unloadRecord (snd entry)
      end).

Definition unloadUser (name : jsstring) : M unit :=
  record <- gets (fun st => JsMap.get name (plugins st)) ;;
  match record with
  | None => throw (PluginNotFound name)
  | Some record =>
      match PluginRecord.kind record with
      | system => throw (SystemPluginCannotBeUnloaded name)
      | user => unloadRecord record
      end
  end.

Definition installUserPluginFromFile (sourcePath : jsstring) : M jsstring :=
  await (FsMkdir userPluginDir) (mkdir world userPluginDir) ;;
  let fileName := basename world sourcePath in
  if negb (isPluginFile fileName) then throw (InvalidPluginFile fileName)
  else
    let targetPath := join world userPluginDir fileName in
    await (FsCopyFile sourcePath targetPath) (copyFile world sourcePath targetPath) ;;
    loadFromFile targetPath {| forceReload := Some false |} user ;;
    ret targetPath.

Definition loadSystem : M unit :=
  loadDir systemPluginDir system {| forceReload := None |}.

Definition loadUser (options : LoadOptions) : M unit :=
  (if isForced options then unloadUserAll else ret tt) ;;
  loadDir userPluginDir user options.

Definition reloadUser : M unit :=
  loadUser {| forceReload := Some true |}.

Definition loadAll : M unit :=
  unloadUserAll ;;
  loadSystem ;;
  loadUser {| forceReload := None |}.

End WithContext.

(** [list()] *)
Definition list (st : State) : Datatypes.list PluginRecord.t :=
  JsMap.values (plugins st).

End PluginManager.

(* ================================================================== *)
(** ** The vocabulary of the properties *)
(* ================================================================== *)

(** A string of whitespace only. *)
Definition allSpace (s : jsstring) : Prop :=
  Forall (fun c => JsString.isWhiteSpace c = true) s.

(** A string without whitespace. *)
Definition noSpace (s : jsstring) : Prop :=
  Forall (fun c => JsString.isWhiteSpace c = false) s.

(** The identities of the handler objects in a dispatcher, of the entries
    of a [handlerIds] array, and the entries as [addUpdateHandler] stores
    them. *)
Definition idents (d : list (nat * UpdateHandler)) : list nat :=
  map (fun gh => ident (snd gh)) d.

Definition entryIdents (hs : list HandlerEntry) : list nat :=
  map (fun e => ident (handler e)) hs.

Definition inDefaultGroup (hs : list HandlerEntry) : list (nat * UpdateHandler) :=
  map (fun e => (0, handler e)) hs.

(** The dispatcher after [unregisterHandlers hs]. *)
Fixpoint removeAll (hs : list HandlerEntry) (d : list (nat * UpdateHandler))
  : list (nat * UpdateHandler) :=
  match hs with
  | [] => d
  | e :: hs' =>
      removeAll hs' (removeFromGroup (defaultGroup (group e)) (ident (handler e)) d)
  end.

(** What every state reached through the manager satisfies: each map has
    one entry per key; a record sits under its own name; a record in the
    path index sits under its own path and is the record of its name; the
    entries of a record name no group; a handler object is subscribed at
    most once, in group 0, and is older than the next object to come. *)
Record wf (st : State) : Prop := {
  wf_keys : NoDup (JsMap.keys (plugins st));
  wf_fileKeys : NoDup (JsMap.keys (pluginsByFile st));
  wf_names : forall k r,
    JsMap.get k (plugins st) = Some r -> PluginRecord.name r = k;
  wf_paths : forall p r,
    JsMap.get p (pluginsByFile st) = Some r ->
    PluginRecord.filePath r = p /\ JsMap.get (PluginRecord.name r) (plugins st) = Some r;
  wf_entries : forall k r,
    JsMap.get k (plugins st) = Some r ->
    Forall (fun e => group e = None) (PluginRecord.handlerIds r);
  wf_idents : NoDup (idents (dispatcher st));
  wf_groups :
    Forall (fun gh => fst gh = 0 /\ ident (snd gh) < nextIdent st) (dispatcher st)
}.

(** Every record of the name index is also the record of its path. *)
Definition indexedByFile (st : State) : Prop :=
  forall k r,
    JsMap.get k (plugins st) = Some r ->
    JsMap.get (PluginRecord.filePath r) (pluginsByFile st) = Some r.

(** The records that exist: those of either index. *)
Definition recordExists (st : State) (r : PluginRecord.t) : Prop :=
  In r (PluginManager.list st) \/ In r (JsMap.values (pluginsByFile st)).

(** The URL that [loadFromFile] imports. *)
Definition moduleUrlOf (world : World) (filePath : jsstring) (options : LoadOptions)
  : jsstring :=
  if isForced options
  then pathToFileURL world filePath ++ js "?t=" ++ JsString.ofNumber (now world)
  else pathToFileURL world filePath.

(** The record that a successful load of [instance] creates. *)
Definition recordOf (instance : BasePlugin.t) (filePath : jsstring) (kind : PluginKind)
    (handlerIds : list HandlerEntry) : PluginRecord.t :=
  {| PluginRecord.name := BasePlugin.name instance;
     PluginRecord.filePath := filePath;
     PluginRecord.kind := kind;
     PluginRecord.handlerIds := handlerIds;
     PluginRecord.instance := instance |}.

(** The ways a call of [loadFromFile] fails, each with the error thrown
    and the external calls made after the import: the import itself
    fails; the module exports nothing usable; the export cannot be
    constructed; its constructor throws; the object is no [BasePlugin];
    the name is taken; the command filter of the keyword cannot be built,
    which happens before any handler is added; [onLoad] throws, after
    which the handlers just registered are removed again. *)
Inductive failure (env : Env) (world : World) (filePath : jsstring)
    (options : LoadOptions) (st : State) : Error -> list Effect -> Prop :=
| ImportFails reason :
    dynamicImport world (moduleUrlOf world filePath options) = Rejected reason ->
    failure env world filePath options st (Foreign reason) []
| NoExport mod_ :
    dynamicImport world (moduleUrlOf world filePath options) = Fulfilled mod_ ->
    truthy (coalesce (default mod_) (Plugin mod_)) = false ->
    failure env world filePath options st (PluginFileHasNoExport filePath) []
| NotConstructible mod_ :
    dynamicImport world (moduleUrlOf world filePath options) = Fulfilled mod_ ->
    truthy (coalesce (default mod_) (Plugin mod_)) = true ->
    (forall c, coalesce (default mod_) (Plugin mod_) <> JsClass c) ->
    failure env world filePath options st NotAConstructor
      [New (coalesce (default mod_) (Plugin mod_))]
| ConstructorThrows mod_ reason :
    dynamicImport world (moduleUrlOf world filePath options) = Fulfilled mod_ ->
    coalesce (default mod_) (Plugin mod_) = JsClass (Rejected reason) ->
    failure env world filePath options st (Foreign reason)
      [New (coalesce (default mod_) (Plugin mod_))]
| NotAPlugin mod_ :
    dynamicImport world (moduleUrlOf world filePath options) = Fulfilled mod_ ->
    coalesce (default mod_) (Plugin mod_) = JsClass (Fulfilled OtherObject) ->
    failure env world filePath options st (PluginMustExtendBasePlugin filePath)
      [New (coalesce (default mod_) (Plugin mod_))]
| DuplicateName mod_ instance :
    dynamicImport world (moduleUrlOf world filePath options) = Fulfilled mod_ ->
    coalesce (default mod_) (Plugin mod_) = JsClass (Fulfilled (PluginInstance instance)) ->
    JsMap.has (BasePlugin.name instance) (plugins st) = true ->
    failure env world filePath options st (DuplicatePluginName (BasePlugin.name instance))
      [New (coalesce (default mod_) (Plugin mod_))]
| FilterThrows mod_ instance command reason :
    dynamicImport world (moduleUrlOf world filePath options) = Fulfilled mod_ ->
    coalesce (default mod_) (Plugin mod_) = JsClass (Fulfilled (PluginInstance instance)) ->
    JsMap.has (BasePlugin.name instance) (plugins st) = false ->
    BasePlugin.command instance = Some command ->
    JsString.nonEmpty command = true ->
    filtersCommand world command (COMMAND_PREFIXES env) = Rejected reason ->
    failure env world filePath options st (Foreign reason)
      [New (coalesce (default mod_) (Plugin mod_))]
| OnLoadThrows mod_ instance reason n :
    dynamicImport world (moduleUrlOf world filePath options) = Fulfilled mod_ ->
    coalesce (default mod_) (Plugin mod_) = JsClass (Fulfilled (PluginInstance instance)) ->
    JsMap.has (BasePlugin.name instance) (plugins st) = false ->
    BasePlugin.onLoad instance = Rejected reason ->
    failure env world filePath options st (Foreign reason)
      ([New (coalesce (default mod_) (Plugin mod_))] ++
       map AddUpdateHandler (seq (nextIdent st) n) ++
       [CallOnLoad (BasePlugin.name instance)] ++
       map RemoveUpdateHandler (seq (nextIdent st) n)).

(** A property of the registry that does not read the trace. *)
Definition ignoresTrace (P : State -> Prop) : Prop :=
  forall st t, P st ->
    P {| plugins := plugins st; pluginsByFile := pluginsByFile st;
         dispatcher := dispatcher st; nextIdent := nextIdent st; trace := t |}.

(** The invariant of a scan that started in [st0]: the registry is well
    formed, its two indices agree, and what [st0] had under a path is
    still there. *)
Definition scanInvariant (st0 st : State) : Prop :=
  wf st /\ indexedByFile st
  /\ forall p r, JsMap.get p (pluginsByFile st0) = Some r ->
                 JsMap.get p (pluginsByFile st) = Some r.

(** The world that differs from [world] in what [readdir] lists. *)
Definition withListing (world : World) (entries : list Dirent) : World :=
  {| filtersCommand := filtersCommand world;
     mkdir := mkdir world; access := access world;
     readdir := fun _ => Fulfilled entries;
     copyFile := copyFile world; dynamicImport := dynamicImport world;
     basename := basename world; join := join world;
     pathToFileURL := pathToFileURL world; now := now world |}.

(** The entries of a listing that a scan tries to load. *)
Definition isCandidate (entry : Dirent) : bool :=
  isFile entry && isPluginFile (entryName entry).

(** A string that [trim] leaves as it is and that holds no comma. *)
Definition isPrefixWord (p : jsstring) : Prop :=
  p <> [] /\ JsString.trim p = p /\ ~ In comma p.

(** The state after the external calls [effects] and nothing else. *)
Definition traced (st : State) (effects : list Effect) : State :=
  {| plugins := plugins st; pluginsByFile := pluginsByFile st;
     dispatcher := dispatcher st; nextIdent := nextIdent st;
     trace := trace st ++ effects |}.

(** A string that is empty or starts with a character that is no
    whitespace. *)
Definition headIsNoSpace (s : jsstring) : Prop :=
  match s with [] => True | c :: _ => JsString.isWhiteSpace c = false end.

(** What the specification calls the trimmed text, defined on its own:
    [t] is [s] without the whitespace at its two ends, that is, [s] is
    [t] between two strings of whitespace, and [t] neither starts nor
    ends with whitespace. *)
Definition trimmedOf (s t : jsstring) : Prop :=
  exists before after,
    s = before ++ t ++ after
    /\ allSpace before /\ allSpace after
    /\ headIsNoSpace t /\ headIsNoSpace (rev t).

(** One turn of the loop of [unloadUserAll]. *)
Definition unloadTurn (entry : jsstring * PluginRecord.t) : M unit :=
  (live <- gets (fun st => JsMap.has (fst entry) (plugins st)) ;;
   if negb live then ret tt
   else match PluginRecord.kind (snd entry) with
        | system => ret tt
        | user => PluginManager.unloadRecord (snd entry)
        end)%manager.

(** What the loop of [unloadUserAll] keeps true of the state [s] it has
    reached from [st]: the invariants, no record that [st] did not have,
    and every system record of [st]. *)
Definition unloadingFrom (st s : State) : Prop :=
  (wf s /\ indexedByFile s)
  /\ (forall k r, JsMap.get k (plugins s) = Some r -> JsMap.get k (plugins st) = Some r)
  /\ (forall k r, JsMap.get k (plugins st) = Some r -> PluginRecord.kind r = system ->
                  JsMap.get k (plugins s) = Some r).


Section Reachability.
Variable env : Env.
Variable systemPluginDir userPluginDir : jsstring.


End Reachability.

(* ================================================================== *)
(** ** Concrete plugins, messages and worlds *)
(* ================================================================== *)

(** The data of the examples: a configuration with the default prefix, a
    few plugin classes and a directory of plugin files. *)
Module Samples.

Definition slashEnv : Env := {| COMMAND_PREFIXES := [js "/"] |}.

Definition messageOf (s : string) (outgoing : bool) : MessageContext :=
  {| messageId := 1; text := Some (js s); isOutgoing := outgoing |}.

(** A plugin with the command keyword [ping] whose methods all succeed. *)
Definition ping : BasePlugin.t :=
  {| BasePlugin.command := Some (js "ping");
     BasePlugin.name := js "ping";
     BasePlugin.description := js "replies pong";
     BasePlugin.scope := both;
     BasePlugin.handlerCommand := fun _ _ _ => Fulfilled tt;
     BasePlugin.handleMessage := fun _ => Fulfilled tt;
     BasePlugin.onLoad := Fulfilled tt;
     BasePlugin.onUnload := Fulfilled tt |}.

(** A second class that also calls itself [ping]. *)
Definition pingAgain : BasePlugin.t :=
  {| BasePlugin.command := Some (js "p");
     BasePlugin.name := js "ping";
     BasePlugin.description := js "another ping";
     BasePlugin.scope := new_message;
     BasePlugin.handlerCommand := fun _ _ _ => Fulfilled tt;
     BasePlugin.handleMessage := fun _ => Fulfilled tt;
     BasePlugin.onLoad := Fulfilled tt;
     BasePlugin.onUnload := Fulfilled tt |}.

(** A plugin without command keyword that listens to messages. *)
Definition greeter : BasePlugin.t :=
  {| BasePlugin.command := None;
     BasePlugin.name := js "greeter";
     BasePlugin.description := js "says hi";
     BasePlugin.scope := new_message;
     BasePlugin.handlerCommand := fun _ _ _ => Fulfilled tt;
     BasePlugin.handleMessage := fun _ => Fulfilled tt;
     BasePlugin.onLoad := Fulfilled tt;
     BasePlugin.onUnload := Fulfilled tt |}.

(** A plugin every method of which throws. *)
Definition faulty : BasePlugin.t :=
  {| BasePlugin.command := Some (js "boom");
     BasePlugin.name := js "faulty";
     BasePlugin.description := js "throws";
     BasePlugin.scope := both;
     BasePlugin.handlerCommand := fun _ _ _ => Rejected (js "command failed");
     BasePlugin.handleMessage := fun _ => Rejected (js "message failed");
     BasePlugin.onLoad := Rejected (js "load failed");
     BasePlugin.onUnload := Rejected (js "unload failed") |}.

(** A plugin whose keyword is no regular expression. *)
Definition cplusplus : BasePlugin.t :=
  {| BasePlugin.command := Some (js "c++");
     BasePlugin.name := js "cplusplus";
     BasePlugin.description := js "compiles";
     BasePlugin.scope := both;
     BasePlugin.handlerCommand := fun _ _ _ => Fulfilled tt;
     BasePlugin.handleMessage := fun _ => Fulfilled tt;
     BasePlugin.onLoad := Fulfilled tt;
     BasePlugin.onUnload := Fulfilled tt |}.

(** A plugin that loads and then cannot be unloaded cleanly. *)
Definition sticky : BasePlugin.t :=
  {| BasePlugin.command := Some (js "sticky");
     BasePlugin.name := js "sticky";
     BasePlugin.description := js "unload hook throws";
     BasePlugin.scope := both;
     BasePlugin.handlerCommand := fun _ _ _ => Fulfilled tt;
     BasePlugin.handleMessage := fun _ => Fulfilled tt;
     BasePlugin.onLoad := Fulfilled tt;
     BasePlugin.onUnload := Rejected (js "unload failed") |}.

Definition classOf (p : BasePlugin.t) : JsValue := JsClass (Fulfilled (PluginInstance p)).

Definition defaultExport (v : JsValue) : ModuleNamespace :=
  {| default := v; Plugin := JsUndefined |}.

(** [export class Plugin ...] and no default export. *)
Definition namedExport (v : JsValue) : ModuleNamespace :=
  {| default := JsUndefined; Plugin := v |}.

(** The part of a path after its last [/]. *)
Fixpoint afterLastSlash (rest s : jsstring) : jsstring :=
  match s with
  | [] => rest
  | c :: s' => if (c =? 47)%N then afterLastSlash s' s' else afterLastSlash rest s'
  end.

(** The modules behind the URLs of the sample directory. *)
Definition modules : list (jsstring * ModuleNamespace) :=
  [ (js "file:///plugins/user/ping.ts", defaultExport (classOf ping));
    (js "file:///plugins/user/ping2.ts", defaultExport (classOf pingAgain));
    (js "file:///plugins/user/greeter.js", namedExport (classOf greeter));
    (js "file:///plugins/user/faulty.ts", defaultExport (classOf faulty));
    (js "file:///plugins/user/sticky.ts", defaultExport (classOf sticky));
    (js "file:///plugins/user/zero.ts", defaultExport (JsBoolean false));
    (js "file:///plugins/user/empty.ts", defaultExport JsUndefined);
    (js "file:///plugins/user/cpp.ts", defaultExport (classOf cplusplus)) ].

(** A world in which [/plugins/user] holds [entries], every file system
    call but [mkdir] succeeds and [mkdir] ends as given; of the keywords
    of the sample plugins only [c++] is refused by [filters.command]. *)
Definition worldWith (entries : list Dirent) (mkdirEnds : Settled unit) : World :=
  {| filtersCommand := fun command _ =>
       if JsString.eqb command (js "c++")
       then Rejected (js "Invalid regular expression: Nothing to repeat")
       else Fulfilled tt;
     mkdir := fun _ => mkdirEnds;
     access := fun _ => Fulfilled tt;
     readdir := fun _ => Fulfilled entries;
     copyFile := fun _ _ => Fulfilled tt;
     dynamicImport := fun url =>
       match JsMap.get url modules with
       | Some m => Fulfilled m
       | None => Rejected (js "ERR_MODULE_NOT_FOUND")
       end;
     basename := fun p => afterLastSlash p p;
     join := fun dir name => dir ++ js "/" ++ name;
     pathToFileURL := fun p => js "file://" ++ p;
     now := 1730592000123 |}.

Definition file (s : string) : Dirent := {| entryName := js s; isFile := true |}.

Definition world : World := worldWith [file "ping.ts"; file "greeter.js"] (Fulfilled tt).

Definition readOnlyWorld : World := worldWith [] (Rejected (js "EROFS")).

Definition userDir : jsstring := js "/plugins/user".
Definition systemDir : jsstring := js "/plugins/system".

Definition notForced : LoadOptions := {| forceReload := None |}.

(** The registry after loading one sample file into the empty one. *)
Definition loaded (s : string) : State :=
  snd (PluginManager.loadFromFile slashEnv world (js s) notForced user
         PluginManager.initial).

(** The record and the registry that loading [greeter.js] into the empty
    registry produces. *)
Definition greeterRecord : PluginRecord.t :=
  {| PluginRecord.name := js "greeter";
     PluginRecord.filePath := js "/plugins/user/greeter.js";
     PluginRecord.kind := user;
     PluginRecord.handlerIds :=
       [{| handler := {| ident := 0; updateName := update_new_message;
                         callback := BasePlugin.invokeHandlerMessage slashEnv greeter;
                         check := None |};
           group := None |}];
     PluginRecord.instance := greeter |}.

Definition greeterLoaded : State :=
  {| plugins := [(js "greeter", greeterRecord)];
     pluginsByFile := [(js "/plugins/user/greeter.js", greeterRecord)];
     dispatcher := map (fun e => (0, handler e)) (PluginRecord.handlerIds greeterRecord);
     nextIdent := 1;
     trace := [DynamicImport (js "file:///plugins/user/greeter.js");
               New (classOf greeter); AddUpdateHandler 0; CallOnLoad (js "greeter")] |}.

End Samples.


(** A registry that holds one system plugin: what loading the sample
    class [greeter] as a system plugin gives. *)
Module SystemSample.

Definition filePath : jsstring := js "/plugins/user/greeter.js".

Definition record : PluginRecord.t :=
  {| PluginRecord.name := js "greeter";
     PluginRecord.filePath := filePath;
     PluginRecord.kind := system;
     PluginRecord.handlerIds := PluginRecord.handlerIds Samples.greeterRecord;
     PluginRecord.instance := Samples.greeter |}.

Definition loaded : State :=
  {| plugins := [(js "greeter", record)];
     pluginsByFile := [(filePath, record)];
     dispatcher := dispatcher Samples.greeterLoaded;
     nextIdent := 1;
     trace := trace Samples.greeterLoaded |}.

End SystemSample.

(* ================================================================== *)
(** * Properties *)
(* ================================================================== *)

(** ** Examples of the embedding *)

Example isPluginFile_ping : isPluginFile (js "ping.ts") = true.
Proof. reflexivity. Qed.

Example isPluginFile_decl : isPluginFile (js "ping.d.ts") = false.
Proof. reflexivity. Qed.

Example sample_scan_loads_two :
  map PluginRecord.name
      (PluginManager.list
         (snd (PluginManager.loadDir Samples.slashEnv Samples.world
                 Samples.userDir user Samples.notForced PluginManager.initial)))
  = [js "ping"; js "greeter"].
Proof. reflexivity. Qed.

Example sample_tokens :
  JsString.matchNonSpace (js "/ping  a b") = Some [js "/ping"; js "a"; js "b"].
Proof. reflexivity. Qed.

(** ** Strings *)

Lemma eqb_eq (a b : jsstring) : JsString.eqb a b = true <-> a = b.
Proof.
  revert b; induction a as [|x a IH]; intros [|y b]; simpl;
    try (split; [discriminate | congruence]); try tauto.
  rewrite andb_true_iff, N.eqb_eq, IH. split.
  - intros [-> ->]; reflexivity.
  - intros H; injection H; auto.
Qed.

Lemma eqb_refl (a : jsstring) : JsString.eqb a a = true.
Proof. apply eqb_eq; reflexivity. Qed.

Lemma eqb_neq (a b : jsstring) : JsString.eqb a b = false <-> a <> b.
Proof.
  destruct (JsString.eqb a b) eqn:E.
  - apply eqb_eq in E. split; [discriminate | congruence].
  - split; [|reflexivity]. intros _ H. apply eqb_eq in H. congruence.
Qed.

Lemma eqb_sym (a b : jsstring) : JsString.eqb a b = JsString.eqb b a.
Proof.
  destruct (JsString.eqb b a) eqn:E.
  - apply eqb_eq in E. subst. apply eqb_refl.
  - apply eqb_neq in E. apply eqb_neq. congruence.
Qed.

Lemma splitAtSpaces_not_nil (s : jsstring) : JsString.splitAtSpaces s <> [].
Proof.
  destruct s as [|c s]; simpl; [discriminate|].
  destruct (JsString.isWhiteSpace c); [discriminate|].
  destruct (JsString.splitAtSpaces s); discriminate.
Qed.

(** A run without whitespace in front of [s] joins the first piece of [s]. *)
Lemma splitAtSpaces_app (a s : jsstring) :
  noSpace a ->
  JsString.splitAtSpaces (a ++ s) =
  match JsString.splitAtSpaces s with
  | [] => [a]
  | p :: ps => (a ++ p) :: ps
  end.
Proof.
  induction 1 as [|c a Hc _ IH]; simpl.
  - destruct (JsString.splitAtSpaces s) eqn:E; [|reflexivity].
    exfalso; exact (splitAtSpaces_not_nil _ E).
  - rewrite Hc, IH. destruct (JsString.splitAtSpaces s); reflexivity.
Qed.

(** The scanner of [/\S+/g] finds the whitespace-delimited tokens. *)
Lemma scanNonSpace_tokens (s cur : jsstring) :
  noSpace cur ->
  JsString.scanNonSpace cur s = JsString.whitespaceTokens (rev cur ++ s).
Proof.
  revert cur; induction s as [|c s IH]; intros cur Hcur.
  - unfold JsString.whitespaceTokens. rewrite splitAtSpaces_app.
    + simpl. rewrite app_nil_r. destruct cur as [|x cur]; [reflexivity|].
      simpl. destruct (rev cur ++ [x]) eqn:E; [|reflexivity].
      destruct (rev cur); discriminate.
    + apply Forall_rev; assumption.
  - simpl. destruct (JsString.isWhiteSpace c) eqn:Hc.
    + unfold JsString.whitespaceTokens. rewrite splitAtSpaces_app by (apply Forall_rev; assumption).
      simpl. rewrite Hc, app_nil_r. simpl.
      destruct cur as [|x cur]; simpl.
      * rewrite (IH []) by constructor. reflexivity.
      * destruct (rev cur ++ [x]) eqn:E; [destruct (rev cur); discriminate|].
        simpl. rewrite (IH []) by constructor. reflexivity.
    + rewrite IH by (constructor; assumption).
      simpl. rewrite <- app_assoc. reflexivity.
Qed.

Lemma matchNonSpace_tokens (s : jsstring) :
  match JsString.matchNonSpace s with Some tokens => tokens | None => [] end
  = JsString.whitespaceTokens s.
Proof.
  unfold JsString.matchNonSpace.
  rewrite (scanNonSpace_tokens s (cur := [])) by constructor. simpl.
  destruct (JsString.whitespaceTokens s); reflexivity.
Qed.

(** Every token is a non-empty run without whitespace. *)
Lemma splitAtSpaces_noSpace (s : jsstring) :
  Forall noSpace (JsString.splitAtSpaces s).
Proof.
  induction s as [|c s IH]; simpl.
  - repeat constructor.
  - destruct (JsString.isWhiteSpace c) eqn:Hc.
    + constructor; [constructor | assumption].
    + destruct (JsString.splitAtSpaces s) as [|p ps].
      * repeat constructor; assumption.
      * inversion IH; subst. constructor; [constructor|]; assumption.
Qed.

Lemma whitespaceTokens_spec (s token : jsstring) :
  In token (JsString.whitespaceTokens s) -> token <> [] /\ noSpace token.
Proof.
  unfold JsString.whitespaceTokens. rewrite filter_In. intros [Hin Hne]. split.
  - destruct token; [discriminate | discriminate].
  - pose proof (splitAtSpaces_noSpace s) as H. rewrite Forall_forall in H. auto.
Qed.

Lemma trimStart_decompose (s : jsstring) :
  exists w, allSpace w /\ s = w ++ JsString.trimStart s.
Proof.
  induction s as [|c s (w & Hw & Hs)]; simpl.
  - exists []. split; [constructor | reflexivity].
  - destruct (JsString.isWhiteSpace c) eqn:Hc.
    + exists (c :: w). split; [constructor; assumption|]. simpl. congruence.
    + exists []. split; [constructor | reflexivity].
Qed.

Lemma trim_decompose (s : jsstring) :
  exists w1 w2, allSpace w1 /\ allSpace w2 /\ s = w1 ++ JsString.trim s ++ w2.
Proof.
  destruct (trimStart_decompose s) as (w1 & Hw1 & Hs).
  destruct (trimStart_decompose (rev (JsString.trimStart s))) as (w2 & Hw2 & Hr).
  exists w1, (rev w2). split; [assumption|]. split; [apply Forall_rev; assumption|].
  unfold JsString.trim, JsString.trimEnd.
  rewrite <- rev_app_distr, <- Hr, rev_involutive. exact Hs.
Qed.

Lemma splitAtSpaces_space_suffix (s w : jsstring) :
  allSpace w ->
  JsString.splitAtSpaces (s ++ w) = JsString.splitAtSpaces s ++ map (fun _ => []) w.
Proof.
  intros Hw. induction s as [|c s IH]; simpl.
  - induction Hw as [|c w Hc _ IHw]; simpl; [reflexivity|].
    rewrite Hc, IHw. reflexivity.
  - destruct (JsString.isWhiteSpace c); rewrite IH; [reflexivity|].
    destruct (JsString.splitAtSpaces s) eqn:E; [|reflexivity].
    exfalso; exact (splitAtSpaces_not_nil _ E).
Qed.

Lemma whitespaceTokens_space_prefix (w t : jsstring) :
  allSpace w ->
  filter JsString.nonEmpty (JsString.splitAtSpaces (w ++ t))
  = filter JsString.nonEmpty (JsString.splitAtSpaces t).
Proof.
  induction 1 as [|c w Hc _ IH]; simpl; [reflexivity|].
  rewrite Hc. simpl. exact IH.
Qed.

Lemma whitespaceTokens_padded (w1 t w2 : jsstring) :
  allSpace w1 -> allSpace w2 ->
  JsString.whitespaceTokens (w1 ++ t ++ w2) = JsString.whitespaceTokens t.
Proof.
  intros Hw1 Hw2. unfold JsString.whitespaceTokens.
  rewrite (whitespaceTokens_space_prefix _ Hw1).
  rewrite splitAtSpaces_space_suffix by assumption.
  rewrite filter_app.
  match goal with |- _ ++ ?empties = _ =>
    assert (empties = []) as -> by (clear; induction w2; simpl; auto) end.
  apply app_nil_r.
Qed.

(** Whitespace around a text adds no token: the tokens of the trimmed
    text are the tokens of the text. *)
Lemma whitespaceTokens_trim (s : jsstring) :
  JsString.whitespaceTokens (JsString.trim s) = JsString.whitespaceTokens s.
Proof.
  destruct (trim_decompose s) as (w1 & w2 & Hw1 & Hw2 & Hs).
  transitivity (JsString.whitespaceTokens (w1 ++ JsString.trim s ++ w2)).
  - symmetry. apply whitespaceTokens_padded; assumption.
  - rewrite <- Hs. reflexivity.
Qed.

Lemma startsWith_iff (s p : jsstring) :
  JsString.startsWith s p = true <-> exists rest, s = p ++ rest.
Proof.
  revert s; induction p as [|y p IH]; intros s.
  - split; [intros _; exists s; reflexivity | intros _; destruct s; reflexivity].
  - destruct s as [|x s]; simpl.
    + split; [discriminate | intros [rest H]; discriminate H].
    + rewrite andb_true_iff, N.eqb_eq, IH. split.
      * intros [-> [rest ->]]. eauto.
      * intros [rest H]. injection H as -> ->. eauto.
Qed.

Lemma trimStart_fixed (s : jsstring) : headIsNoSpace s -> JsString.trimStart s = s.
Proof. destruct s as [|c s]; simpl; [reflexivity | intros ->; reflexivity]. Qed.

Lemma trimStart_head (s : jsstring) : headIsNoSpace (JsString.trimStart s).
Proof.
  induction s as [|c s IH]; simpl; [exact I|].
  destruct (JsString.isWhiteSpace c) eqn:E; [exact IH | exact E].
Qed.

Lemma trimEnd_decompose (s : jsstring) :
  exists w, allSpace w /\ s = JsString.trimEnd s ++ w.
Proof.
  destruct (trimStart_decompose (rev s)) as (w & Hw & Hs).
  exists (rev w). split; [apply Forall_rev; assumption|].
  unfold JsString.trimEnd. rewrite <- rev_app_distr, <- Hs, rev_involutive. reflexivity.
Qed.

Lemma trimEnd_head (s : jsstring) : headIsNoSpace s -> headIsNoSpace (JsString.trimEnd s).
Proof.
  intros H. destruct (trimEnd_decompose s) as (w & _ & Hs).
  destruct (JsString.trimEnd s) as [|c u]; [exact I|].
  rewrite Hs in H. exact H.
Qed.

Lemma trimEnd_fixed (s : jsstring) : headIsNoSpace (rev s) -> JsString.trimEnd s = s.
Proof.
  intros H. unfold JsString.trimEnd. rewrite (trimStart_fixed _ H). apply rev_involutive.
Qed.

(** [trim] does nothing to what [trim] returned. *)
Lemma trim_idempotent (s : jsstring) : JsString.trim (JsString.trim s) = JsString.trim s.
Proof.
  assert (headIsNoSpace (JsString.trim s)) as Hhead
    by (apply trimEnd_head, trimStart_head).
  assert (headIsNoSpace (rev (JsString.trim s))) as Hlast.
  { unfold JsString.trim, JsString.trimEnd. rewrite rev_involutive. apply trimStart_head. }
  unfold JsString.trim at 1. rewrite (trimStart_fixed _ Hhead). apply trimEnd_fixed, Hlast.
Qed.

Lemma trim_incl (s : jsstring) (c : N) : In c (JsString.trim s) -> In c s.
Proof.
  intros H. destruct (trim_decompose s) as (w1 & w2 & _ & _ & Hs).
  rewrite Hs, !in_app_iff. tauto.
Qed.

Lemma trim_allSpace (w : jsstring) : allSpace w -> JsString.trim w = [].
Proof.
  intros Hw. assert (JsString.trimStart w = []) as H
    by (induction Hw as [|c w Hc _ IH]; simpl; [|rewrite Hc]; auto).
  unfold JsString.trim. rewrite H. reflexivity.
Qed.



Lemma trimmedOf_trim (s : jsstring) : trimmedOf s (JsString.trim s).
Proof.
  destruct (trim_decompose s) as (w1 & w2 & Hw1 & Hw2 & Hs).
  exists w1, w2. split; [exact Hs|]. split; [exact Hw1|]. split; [exact Hw2|]. split.
  - apply trimEnd_head, trimStart_head.
  - unfold JsString.trim, JsString.trimEnd. rewrite rev_involutive. apply trimStart_head.
Qed.

(** ** Routing of messages ([BasePlugin]) *)

Section Routing.
Variable env : Env.
Variable this : BasePlugin.t.
Variable message : MessageContext.

Lemma tokensOf_tokens :
  BasePlugin.tokensOf message = JsString.whitespaceTokens (BasePlugin.rawText message).
Proof.
  unfold BasePlugin.tokensOf. rewrite matchNonSpace_tokens.
  unfold BasePlugin.trimmedText, BasePlugin.rawText.
  destruct (text message); [apply whitespaceTokens_trim | reflexivity].
Qed.


(** C3. A message that reaches the command subscription of a plugin makes
    the routing call [handlerCommand] if and only if the message is
    outgoing (written by the operator). The call, when made, is the only
    one; with the text of the message cut into its whitespace-delimited tokens,
    the first token is dropped, the second is the sub-command (the empty
    string when there is none) and the tokens after it are the arguments.
    With the prefix [/]: for the text [/ping] written by the operator the
    sub-command is empty and there are no arguments, whatever the plugin,
    and for the same text written by someone else a plugin with the
    keyword [ping] gets neither of its two handlers called. *)
Theorem doHandlerCommand_routes_operator_commands :
  let tokens := JsString.whitespaceTokens (BasePlugin.rawText message) in
  ((exists subCommand args,
       In (CallHandlerCommand message subCommand args)
          (calls (BasePlugin.doHandlerCommand this message)))
     <-> isOutgoing message = true)
  /\ calls (BasePlugin.doHandlerCommand this message)
     = (if isOutgoing message
        then [CallHandlerCommand message (nth 1 tokens []) (skipn 2 tokens)]
        else [])
  /\ calls (BasePlugin.invokeHandlerCommand this (Samples.messageOf "/ping" true))
     = [CallHandlerCommand (Samples.messageOf "/ping" true) [] []]
  /\ calls (BasePlugin.invokeHandlerCommand Samples.ping (Samples.messageOf "/ping" false)) = []
  /\ calls (BasePlugin.invokeHandlerMessage Samples.slashEnv Samples.ping
              (Samples.messageOf "/ping" false)) = [].
Proof.
  cbv zeta.
  assert (calls (BasePlugin.doHandlerCommand this message)
          = if isOutgoing message
            then [CallHandlerCommand message
                    (nth 1 (JsString.whitespaceTokens (BasePlugin.rawText message)) [])
                    (skipn 2 (JsString.whitespaceTokens (BasePlugin.rawText message)))]
            else []) as Hcalls.
  { unfold BasePlugin.doHandlerCommand. rewrite tokensOf_tokens.
    destruct (isOutgoing message); [|reflexivity]. unfold calls; simpl.
    destruct (JsString.whitespaceTokens (BasePlugin.rawText message)) as [|t0 [|t1 ts]];
      reflexivity. }
  split; [|split; [exact Hcalls|]].
  - rewrite Hcalls. destruct (isOutgoing message); split.
    + reflexivity.
    + intros _. do 2 eexists. left. reflexivity.
    + intros (s & a & []).
    + discriminate.
  - split; [|split]; try reflexivity.
    unfold BasePlugin.invokeHandlerCommand, BasePlugin.doHandlerCommand, routedBind, calls.
    simpl. destruct (BasePlugin.handlerCommand this _ _ _); reflexivity.
Qed.


(** C10. For a plugin whose [command] is [null], the check of the generic
    handler compares the text with [prefix + null], which is the prefix
    followed by the characters [null]: a message of another user whose
    trimmed text starts with a configured prefix and then [null] is
    dropped without any call of [handleMessage]. *)
Theorem doHandlerMessage_null_command_drops_prefixed_null (prefix : jsstring) :
  BasePlugin.command this = None ->
  In prefix (COMMAND_PREFIXES env) ->
  isOutgoing message = false ->
  JsString.startsWith (BasePlugin.trimmedText message) (prefix ++ js "null") = true ->
  BasePlugin.concatCommand prefix (BasePlugin.command this) = prefix ++ js "null"
  /\ BasePlugin.isCommand env this message = true
  /\ BasePlugin.doHandlerMessage env this message = ([], Ok tt)
  /\ BasePlugin.invokeHandlerMessage env this message = ([], Ok Continue).
Proof.
  intros Hnull Hin Hout Hstarts.
  assert (BasePlugin.isCommand env this message = true) as Hc.
  { unfold BasePlugin.isCommand. apply existsb_exists. exists prefix.
    rewrite Hnull. auto. }
  unfold BasePlugin.invokeHandlerMessage, BasePlugin.doHandlerMessage.
  rewrite Hc, Hnull. simpl. auto.
Qed.

(** C2, as the code has it. The two wrappers add no error handling: each
    returns [PropagationAction.Continue] when the handler is not called or
    returns normally, and lets an error thrown by the handler through to
    its own caller, the dispatcher. *)
Theorem invokeHandler_continues_unless_handler_throws :
  outcome (BasePlugin.invokeHandlerMessage env this message)
  = (if negb (BasePlugin.isCommand env this message) && negb (isOutgoing message)
     then match BasePlugin.handleMessage this message with
          | Fulfilled _ => Ok Continue
          | Rejected reason => Throw (Foreign reason)
          end
     else Ok Continue)
  /\ outcome (BasePlugin.invokeHandlerCommand this message)
  = (if isOutgoing message
     then match BasePlugin.handlerCommand this message
                  (nth 1 (BasePlugin.tokensOf message) [])
                  (skipn 2 (BasePlugin.tokensOf message)) with
          | Fulfilled _ => Ok Continue
          | Rejected reason => Throw (Foreign reason)
          end
     else Ok Continue).
Proof.
  unfold BasePlugin.invokeHandlerMessage, BasePlugin.invokeHandlerCommand,
    BasePlugin.doHandlerMessage, BasePlugin.doHandlerCommand, routedBind, outcome.
  split.
  - destruct (negb (BasePlugin.isCommand env this message) && negb (isOutgoing message));
      [|reflexivity].
    destruct (BasePlugin.handleMessage this message); reflexivity.
  - destruct (isOutgoing message); [|reflexivity].
    destruct (BasePlugin.tokensOf message) as [|t0 [|t1 ts]]; simpl;
      match goal with |- context [BasePlugin.handlerCommand ?a ?b ?c ?d] =>
        destruct (BasePlugin.handlerCommand a b c d) end; reflexivity.
Qed.

End Routing.


(** C10 at a plugin without keyword: [/null and void] from another user. *)
Lemma doHandlerMessage_null_command_witness :
  BasePlugin.doHandlerMessage Samples.slashEnv Samples.greeter
    (Samples.messageOf "/null and void" false) = ([], Ok tt)
  /\ calls (BasePlugin.doHandlerMessage Samples.slashEnv Samples.greeter
              (Samples.messageOf "/nil and void" false))
     = [CallHandleMessage (Samples.messageOf "/nil and void" false)].
Proof.
  split.
  - apply (doHandlerMessage_null_command_drops_prefixed_null
             Samples.slashEnv Samples.greeter
             (Samples.messageOf "/null and void" false) (js "/"));
      [reflexivity | left; reflexivity | reflexivity | reflexivity].
  - reflexivity.
Defined.

(** C2 at a plugin whose handlers throw: the error of [handleMessage], and
    of [handlerCommand], comes out of the wrapper instead of [Continue]. *)
Lemma invokeHandler_lets_errors_through :
  outcome (BasePlugin.invokeHandlerMessage Samples.slashEnv Samples.faulty
             (Samples.messageOf "hello" false))
  = Throw (Foreign (js "message failed"))
  /\ outcome (BasePlugin.invokeHandlerCommand Samples.faulty
                (Samples.messageOf "/boom now" true))
  = Throw (Foreign (js "command failed"))
  /\ outcome (BasePlugin.invokeHandlerMessage Samples.slashEnv Samples.faulty
                (Samples.messageOf "hello" false))
  <> Ok Continue.
Proof. repeat split; try reflexivity. discriminate. Qed.

(** ** Maps *)

Section MapFacts.
Variable V : Type.
Implicit Types (m : JsMap.t V) (k : jsstring) (v : V).

Lemma get_set_eq m k v : JsMap.get k (JsMap.set k v m) = Some v.
Proof.
  induction m as [|[k' v'] m IH]; simpl.
  - rewrite eqb_refl. reflexivity.
  - destruct (JsString.eqb k k') eqn:E; simpl.
    + rewrite eqb_refl. reflexivity.
    + rewrite E. assumption.
Qed.

Lemma get_set_neq m k k' v : k <> k' -> JsMap.get k' (JsMap.set k v m) = JsMap.get k' m.
Proof.
  intros Hne. induction m as [|[k0 v0] m IH]; simpl.
  - apply not_eq_sym, eqb_neq in Hne. rewrite Hne. reflexivity.
  - destruct (JsString.eqb k k0) eqn:E; simpl.
    + apply eqb_eq in E; subst k0.
      apply not_eq_sym, eqb_neq in Hne. rewrite Hne. reflexivity.
    + destruct (JsString.eqb k' k0); [reflexivity | assumption].
Qed.

Lemma get_delete_eq m k : JsMap.get k (JsMap.delete k m) = None.
Proof.
  unfold JsMap.delete. induction m as [|[k' v'] m IH]; simpl; [reflexivity|].
  destruct (JsString.eqb k k') eqn:E; simpl; [assumption|].
  rewrite E. assumption.
Qed.

Lemma get_delete_neq m k k' : k <> k' -> JsMap.get k' (JsMap.delete k m) = JsMap.get k' m.
Proof.
  intros Hne. unfold JsMap.delete. induction m as [|[k0 v0] m IH]; simpl; [reflexivity|].
  destruct (JsString.eqb k k0) eqn:E; simpl.
  - apply eqb_eq in E; subst k0.
    apply not_eq_sym, eqb_neq in Hne. rewrite Hne. assumption.
  - rewrite IH. reflexivity.
Qed.

Lemma has_true m k : JsMap.has k m = true <-> exists v, JsMap.get k m = Some v.
Proof.
  unfold JsMap.has. destruct (JsMap.get k m) as [v|]; split.
  - eauto.
  - reflexivity.
  - discriminate.
  - intros [v H]; discriminate.
Qed.

Lemma has_false m k : JsMap.has k m = false <-> JsMap.get k m = None.
Proof.
  unfold JsMap.has. destruct (JsMap.get k m); split; congruence.
Qed.

Lemma get_none_keys m k : JsMap.get k m = None <-> ~ In k (JsMap.keys m).
Proof.
  induction m as [|[k' v'] m IH]; simpl.
  - tauto.
  - destruct (JsString.eqb k k') eqn:E.
    + apply eqb_eq in E. subst. split; [discriminate | tauto].
    + apply eqb_neq in E. rewrite IH. split.
      * intros H [H'|H']; [congruence | tauto].
      * tauto.
Qed.

Lemma get_In m k v : JsMap.get k m = Some v -> In (k, v) m.
Proof.
  induction m as [|[k' v'] m IH]; simpl; [discriminate|].
  destruct (JsString.eqb k k') eqn:E.
  - apply eqb_eq in E. subst. intros H; injection H as ->. auto.
  - auto.
Qed.

Lemma In_get m k v : NoDup (JsMap.keys m) -> In (k, v) m -> JsMap.get k m = Some v.
Proof.
  induction m as [|[k' v'] m IH]; simpl; [tauto|].
  intros Hnd [H|H].
  - injection H as -> ->. rewrite eqb_refl. reflexivity.
  - inversion Hnd as [|? ? Hnotin Hnd']; subst.
    destruct (JsString.eqb k k') eqn:E.
    + apply eqb_eq in E; subst k'. exfalso. apply Hnotin.
      change k with (fst (k, v)). apply in_map. assumption.
    + auto.
Qed.

(** With one entry per key, the values of a map are what [get] finds. *)
Lemma In_values m v :
  NoDup (JsMap.keys m) ->
  In v (JsMap.values m) <-> exists k, JsMap.get k m = Some v.
Proof.
  intros Hnd. unfold JsMap.values. rewrite in_map_iff. split.
  - intros ([k v'] & Hv & Hin). simpl in Hv; subst v'.
    exists k. apply In_get; assumption.
  - intros [k H]. exists (k, v). split; [reflexivity | apply get_In; assumption].
Qed.

Lemma keys_set_in m k v :
  JsMap.get k m <> None -> JsMap.keys (JsMap.set k v m) = JsMap.keys m.
Proof.
  induction m as [|[k' v'] m IH]; simpl; [congruence|].
  destruct (JsString.eqb k k') eqn:E; simpl.
  - apply eqb_eq in E. subst. reflexivity.
  - intros H. rewrite IH by assumption. reflexivity.
Qed.

Lemma keys_set_fresh m k v :
  JsMap.get k m = None -> JsMap.keys (JsMap.set k v m) = JsMap.keys m ++ [k].
Proof.
  induction m as [|[k' v'] m IH]; simpl; [reflexivity|].
  destruct (JsString.eqb k k') eqn:E; simpl; [discriminate|].
  intros H. rewrite IH by assumption. reflexivity.
Qed.

Lemma NoDup_keys_set m k v : NoDup (JsMap.keys m) -> NoDup (JsMap.keys (JsMap.set k v m)).
Proof.
  intros Hnd. destruct (JsMap.get k m) eqn:E.
  - rewrite keys_set_in by congruence. assumption.
  - rewrite keys_set_fresh by assumption.
    apply NoDup_app; [assumption | repeat constructor; simpl; tauto |].
    intros x Hx [<-|[]]. apply get_none_keys in E. contradiction.
Qed.

Lemma NoDup_keys_delete m k : NoDup (JsMap.keys m) -> NoDup (JsMap.keys (JsMap.delete k m)).
Proof.
  unfold JsMap.delete, JsMap.keys. induction m as [|[k' v'] m IH]; simpl; [auto|].
  intros Hnd. inversion Hnd as [|? ? Hnotin Hnd']; subst.
  destruct (JsString.eqb k k'); simpl; [auto|].
  constructor; [|auto].
  intros Hin. apply Hnotin. apply in_map_iff in Hin.
  destruct Hin as (x & Hx & Hin). apply filter_In in Hin.
  apply in_map_iff. exists x. tauto.
Qed.

End MapFacts.

(** ** The dispatcher: subscribing and unsubscribing *)

Lemma state_eta (st : State) :
  {| plugins := plugins st; pluginsByFile := pluginsByFile st;
     dispatcher := dispatcher st; nextIdent := nextIdent st; trace := trace st |} = st.
Proof. destruct st; reflexivity. Qed.

Lemma removeFromGroup_incl g i d x :
  In x (removeFromGroup g i d) -> In x d.
Proof.
  induction d as [|[g' h] d IH]; simpl; [tauto|].
  destruct ((g' =? g) && (ident h =? i)); simpl; tauto.
Qed.

Lemma removeFromGroup_idents_incl g i d j :
  In j (idents (removeFromGroup g i d)) -> In j (idents d).
Proof.
  unfold idents. rewrite !in_map_iff. intros (x & Hx & Hin).
  exists x. split; [assumption | eapply removeFromGroup_incl; eassumption].
Qed.

Lemma removeFromGroup_NoDup g i d :
  NoDup (idents d) -> NoDup (idents (removeFromGroup g i d)).
Proof.
  induction d as [|[g' h] d IH]; simpl; [auto|].
  intros Hnd. inversion Hnd as [|? ? Hnotin Hnd']; subst.
  destruct ((g' =? g) && (ident h =? i)); simpl; [assumption|].
  constructor; [|auto].
  intros Hin. apply Hnotin. eapply removeFromGroup_idents_incl; eassumption.
Qed.

Lemma removeFromGroup_gone i d :
  NoDup (idents d) -> Forall (fun gh => fst gh = 0) d ->
  ~ In i (idents (removeFromGroup 0 i d)).
Proof.
  induction d as [|[g' h] d IH]; simpl; [tauto|].
  intros Hnd Hg. inversion Hnd as [|? ? Hnotin Hnd']; subst.
  inversion Hg as [|? ? Hg0 Hg']; subst. simpl in Hg0; subst g'. simpl.
  destruct (ident h =? i) eqn:E; simpl.
  - apply Nat.eqb_eq in E. subst. assumption.
  - apply Nat.eqb_neq in E. intros [H|H]; [contradiction | exact (IH Hnd' Hg' H)].
Qed.

Lemma removeFromGroup_appended g h i d r :
  ident h = i -> ~ In i (idents d) ->
  removeFromGroup g i (d ++ (g, h) :: r) = d ++ r.
Proof.
  intros Hi. induction d as [|[g' h'] d IH]; simpl; intros Hnotin.
  - rewrite Nat.eqb_refl, Hi, Nat.eqb_refl. reflexivity.
  - destruct (ident h' =? i) eqn:E.
    + apply Nat.eqb_eq in E. tauto.
    + rewrite andb_false_r. rewrite IH by tauto. reflexivity.
Qed.

Lemma removeAll_incl hs d x : In x (removeAll hs d) -> In x d.
Proof.
  revert d; induction hs as [|e hs IH]; simpl; intros d; [tauto|].
  intros H. apply IH in H. eapply removeFromGroup_incl; eassumption.
Qed.

Lemma removeAll_idents_incl hs d j : In j (idents (removeAll hs d)) -> In j (idents d).
Proof.
  unfold idents. rewrite !in_map_iff. intros (x & Hx & Hin).
  exists x. split; [assumption | eapply removeAll_incl; eassumption].
Qed.

Lemma removeAll_NoDup hs d : NoDup (idents d) -> NoDup (idents (removeAll hs d)).
Proof.
  revert d; induction hs as [|e hs IH]; simpl; intros d Hnd; [assumption|].
  apply IH, removeFromGroup_NoDup, Hnd.
Qed.

(** Handlers that were just appended, by fresh objects, come off again
    and leave the dispatcher as it was. *)
Lemma removeAll_appended hs d :
  Forall (fun e => group e = None) hs ->
  NoDup (entryIdents hs) ->
  (forall i, In i (entryIdents hs) -> ~ In i (idents d)) ->
  removeAll hs (d ++ inDefaultGroup hs) = d.
Proof.
  induction hs as [|e hs IH]; simpl; intros Hg Hnd Hfresh.
  - apply app_nil_r.
  - inversion Hg as [|? ? Hg0 Hg']; subst. inversion Hnd; subst.
    rewrite Hg0. simpl.
    rewrite removeFromGroup_appended by auto.
    apply IH; auto.
Qed.

(** Once [unregisterHandlers hs] has run, no handler of [hs] is left. *)
Lemma removeAll_gone hs d e :
  NoDup (idents d) -> Forall (fun gh => fst gh = 0) d ->
  Forall (fun e => group e = None) hs ->
  In e hs -> ~ In (ident (handler e)) (idents (removeAll hs d)).
Proof.
  revert d; induction hs as [|e' hs IH]; simpl; intros d Hnd Hg0 Hg Hin; [tauto|].
  inversion Hg as [|? ? He' Hg']; subst.
  assert (Forall (fun gh => fst gh = 0)
            (removeFromGroup (defaultGroup (group e')) (ident (handler e')) d)) as Hg0'.
  { rewrite Forall_forall in *. intros x Hx. apply Hg0.
    eapply removeFromGroup_incl; eassumption. }
  destruct Hin as [->|Hin].
  - intros H. apply removeAll_idents_incl in H. rewrite He' in H.
    exact (removeFromGroup_gone _ Hnd Hg0 H).
  - apply IH; auto using removeFromGroup_NoDup.
Qed.

Lemma unregisterHandlers_spec hs st :
  PluginManager.unregisterHandlers hs st =
  (Ok tt,
   {| plugins := plugins st; pluginsByFile := pluginsByFile st;
      dispatcher := removeAll hs (dispatcher st); nextIdent := nextIdent st;
      trace := trace st ++ map RemoveUpdateHandler (entryIdents hs) |}).
Proof.
  unfold PluginManager.unregisterHandlers.
  revert st; induction hs as [|e hs IH]; intros st; simpl.
  - unfold ret. rewrite app_nil_r, state_eta. reflexivity.
  - unfold bind at 1. unfold removeUpdateHandler, bind, emit, modify. simpl.
    rewrite IH. simpl. rewrite <- app_assoc. reflexivity.
Qed.

(** [registerHandlers] throws only when the command filter cannot be
    built, and then has done nothing; otherwise it adds the handlers it
    returns, which are new objects. *)
Lemma registerHandlers_spec env world instance st :
  (exists command reason,
     BasePlugin.command instance = Some command
     /\ JsString.nonEmpty command = true
     /\ filtersCommand world command (COMMAND_PREFIXES env) = Rejected reason
     /\ PluginManager.registerHandlers env world instance st = (Throw (Foreign reason), st))
  \/ exists hs,
    PluginManager.registerHandlers env world instance st =
    (Ok hs,
     {| plugins := plugins st; pluginsByFile := pluginsByFile st;
        dispatcher := dispatcher st ++ inDefaultGroup hs;
        nextIdent := nextIdent st + List.length hs;
        trace := trace st ++ map AddUpdateHandler (entryIdents hs) |})
    /\ entryIdents hs = seq (nextIdent st) (List.length hs)
    /\ Forall (fun e => group e = None) hs.
Proof.
  unfold PluginManager.registerHandlers, PluginManager.registerWhen,
    PluginManager.commandFilter.
  destruct (BasePlugin.command instance) as [[|c command]|]; cbn [JsString.nonEmpty];
    [| destruct (filtersCommand world (c :: command) (COMMAND_PREFIXES env))
         as [[]|reason] eqn:Efilter
     |];
    try (left; exists (c :: command), reason; unfold bind at 1;
         repeat split; auto; fail);
    right; destruct (BasePlugin.scope instance);
    unfold bind, ret, newUpdateHandler, addUpdateHandler, emit, modify; simpl;
    eexists; (split; [apply f_equal2; [reflexivity|]|]);
    try (simpl; rewrite <- ?app_assoc, ?app_nil_r, ?Nat.add_0_r; simpl;
         f_equal; lia);
    (split; [reflexivity | repeat constructor]).
Qed.

(** ** Invariants of the registry *)

Arguments PluginManager.registerHandlers : simpl never.
Arguments PluginManager.unregisterHandlers : simpl never.

Lemma wf_initial : wf PluginManager.initial.
Proof. constructor; simpl; try constructor; try discriminate. Qed.

Lemma wf_fresh_idents st i :
  wf st -> nextIdent st <= i -> ~ In i (idents (dispatcher st)).
Proof.
  intros Hwf Hle Hin. unfold idents in Hin. apply in_map_iff in Hin.
  destruct Hin as (gh & <- & Hin).
  pose proof (wf_groups Hwf) as Hg. rewrite Forall_forall in Hg.
  apply Hg in Hin. lia.
Qed.

Section LoadFromFile.
Variable env : Env.
Variable world : World.
Variable filePath : jsstring.
Variable options : LoadOptions.
Variable kind : PluginKind.

(** What a call of [loadFromFile] can do, case by case: a thrown error
    is one of the failures above and leaves the maps and the dispatcher
    as they were; success adds one record, under the name and under the
    path, and its handlers. *)
Lemma loadFromFile_cases st :
  match PluginManager.loadFromFile env world filePath options kind st with
  | (Throw e, st') =>
      plugins st' = plugins st /\ pluginsByFile st' = pluginsByFile st /\
      (wf st -> dispatcher st' = dispatcher st) /\ nextIdent st <= nextIdent st' /\
      exists t,
        failure env world filePath options st e t /\
        trace st' = trace st ++ DynamicImport (moduleUrlOf world filePath options) :: t
  | (Ok _, st') =>
      exists mod_ instance hs,
        dynamicImport world (moduleUrlOf world filePath options) = Fulfilled mod_ /\
        coalesce (default mod_) (Plugin mod_) = JsClass (Fulfilled (PluginInstance instance)) /\
        JsMap.get (BasePlugin.name instance) (plugins st) = None /\
        BasePlugin.onLoad instance = Fulfilled tt /\
        plugins st' = JsMap.set (BasePlugin.name instance)
                        (recordOf instance filePath kind hs) (plugins st) /\
        pluginsByFile st' = JsMap.set filePath
                        (recordOf instance filePath kind hs) (pluginsByFile st) /\
        dispatcher st' = dispatcher st ++ inDefaultGroup hs /\
        entryIdents hs = seq (nextIdent st) (List.length hs) /\
        nextIdent st' = nextIdent st + List.length hs /\
        Forall (fun e => group e = None) hs /\
        trace st' = trace st ++
          [DynamicImport (moduleUrlOf world filePath options);
           New (coalesce (default mod_) (Plugin mod_))] ++
          map AddUpdateHandler (entryIdents hs) ++
          [CallOnLoad (BasePlugin.name instance)]
  end.
Proof.
  pose proof (@ImportFails env world filePath options st) as F1.
  pose proof (@NoExport env world filePath options st) as F2.
  pose proof (@NotConstructible env world filePath options st) as F3.
  pose proof (@ConstructorThrows env world filePath options st) as F4.
  pose proof (@NotAPlugin env world filePath options st) as F5.
  pose proof (@DuplicateName env world filePath options st) as F6.
  pose proof (@OnLoadThrows env world filePath options st) as F7.
  pose proof (@FilterThrows env world filePath options st) as F8.
  unfold PluginManager.loadFromFile, moduleUrlOf in *. cbv zeta.
  set (url := if isForced options then _ else _) in *.
  unfold bind at 1. unfold await at 1. unfold bind at 1, emit, modify. cbn beta iota.
  destruct (dynamicImport world url) as [mod_|reason] eqn:Eimp; cbn [settle].
  2:{ cbn. repeat split; auto. exists []. split; auto. }
  specialize (F2 mod_ eq_refl). specialize (F3 mod_ eq_refl).
  specialize (fun r => F4 mod_ r eq_refl). specialize (F5 mod_ eq_refl).
  specialize (fun i => F6 mod_ i eq_refl). specialize (fun i r n => F7 mod_ i r n eq_refl).
  specialize (fun i c r => F8 mod_ i c r eq_refl).
  destruct (coalesce (default mod_) (Plugin mod_)) as [| |b|s| |c] eqn:Ector.
  1-5: try destruct b; try destruct s; cbn; repeat split; auto;
       eexists; (split; [first [apply F2; reflexivity
                               | apply F3; [reflexivity | intros c; discriminate]]
                        | rewrite <- ?app_assoc; reflexivity]).
  cbn [truthy negb]. unfold bind at 1. unfold PluginManager.construct.
  unfold bind at 1, emit, modify. cbn beta iota.
  destruct c as [[|instance]|reason]; cbn [settle].
  1,3: cbn; repeat split; auto; eexists;
       (split; [first [apply F5 | apply F4]; reflexivity
               | rewrite <- ?app_assoc; reflexivity]).
  unfold bind at 1, gets at 1. cbn beta iota. cbn [plugins].
  destruct (JsMap.has (BasePlugin.name instance) (plugins st)) eqn:Ehas.
  { cbn; repeat split; auto; eexists;
      (split; [apply F6; auto | rewrite <- ?app_assoc; reflexivity]). }
  unfold bind at 1.
  match goal with |- context [PluginManager.registerHandlers ?e ?w ?i ?s] =>
    destruct (registerHandlers_spec e w i s)
      as [(command & reason & Hcommand & Hnonempty & Hfilter & ->)
         |(hs & -> & Hids & Hgrp)] end.
  { cbn; repeat split; auto; eexists;
      (split; [eapply F8; eauto | rewrite <- ?app_assoc; reflexivity]). }
  cbn [plugins pluginsByFile dispatcher nextIdent trace] in *.
  unfold bind at 1, tryCatch, await. unfold bind at 1, emit, modify. cbn beta iota.
  cbn [plugins pluginsByFile dispatcher nextIdent trace].
  destruct (BasePlugin.onLoad instance) as [[]|reason] eqn:Eload; cbn [settle].
  - cbn. exists mod_, instance, hs. rewrite Ector. apply has_false in Ehas.
    repeat split; auto. rewrite <- !app_assoc. reflexivity.
  - unfold bind at 1. rewrite unregisterHandlers_spec. cbn.
    repeat split; auto; [|lia|].
    + intros Hwf. apply removeAll_appended; auto.
      * rewrite Hids. apply seq_NoDup.
      * intros i Hi. rewrite Hids in Hi. apply in_seq in Hi.
        apply wf_fresh_idents; [assumption | lia].
    + eexists. split; [apply (F7 instance reason (List.length hs)); auto|].
      rewrite Hids, <- !app_assoc. reflexivity.
Qed.

End LoadFromFile.

Lemma idents_app d d' : idents (d ++ d') = idents d ++ idents d'.
Proof. unfold idents. apply map_app. Qed.

Lemma idents_inDefaultGroup hs : idents (inDefaultGroup hs) = entryIdents hs.
Proof. unfold idents, inDefaultGroup, entryIdents. rewrite map_map. reflexivity. Qed.

Lemma failure_adds_are_removed env world filePath options st e t :
  failure env world filePath options st e t ->
  forall i, In (AddUpdateHandler i) t -> In (RemoveUpdateHandler i) t.
Proof.
  intros F i. destruct F; simpl; try (intuition discriminate).
  rewrite !in_app_iff. simpl. rewrite ?in_app_iff, !in_map_iff.
  intros [Hi|[(x & Hx & Hin)|[Hi|(x & Hx & _)]]]; try discriminate.
  injection Hx as ->. right; right; right. exists i. auto.
Qed.

Lemma failure_onLoad env world filePath options st e t name :
  failure env world filePath options st e t ->
  In (CallOnLoad name) t ->
  exists PluginCtor n reason,
    e = Foreign reason /\
    t = [New PluginCtor] ++ map AddUpdateHandler (seq (nextIdent st) n) ++
        [CallOnLoad name] ++ map RemoveUpdateHandler (seq (nextIdent st) n).
Proof.
  intros F. destruct F; simpl; try (intuition discriminate).
  rewrite !in_app_iff. simpl. rewrite !in_map_iff.
  intros [Hi|[(x & Hx & _)|[Hi|(x & Hx & _)]]]; try discriminate.
  injection Hi as <-. eauto.
Qed.

Section LoadPreserves.
Variable env : Env.
Variable world : World.
Variable filePath : jsstring.
Variable options : LoadOptions.
Variable kind : PluginKind.

Lemma loadFromFile_wf st :
  wf st -> wf (snd (PluginManager.loadFromFile env world filePath options kind st)).
Proof.
  intros Hwf. pose proof (loadFromFile_cases env world filePath options kind st) as H.
  destruct (PluginManager.loadFromFile env world filePath options kind st) as [[[]|e] st'];
    simpl.
  - destruct H as (mod_ & instance & hs & _ & _ & Hfree & _ & Hp & Hf & Hd & Hids & Hn & Hg & _).
    destruct Hwf as [K1 K2 K3 K4 K5 K6 K7].
    constructor.
    + rewrite Hp. apply NoDup_keys_set, K1.
    + rewrite Hf. apply NoDup_keys_set, K2.
    + rewrite Hp. intros k r.
      destruct (JsString.eqb (BasePlugin.name instance) k) eqn:E.
      * apply eqb_eq in E. subst k. rewrite get_set_eq. intros Hr; injection Hr as <-.
        reflexivity.
      * apply eqb_neq in E. rewrite get_set_neq by assumption. apply K3.
    + rewrite Hp, Hf. intros p r.
      destruct (JsString.eqb filePath p) eqn:E.
      * apply eqb_eq in E. subst p. rewrite get_set_eq. intros Hr; injection Hr as <-.
        simpl. split; [reflexivity | apply get_set_eq].
      * apply eqb_neq in E. rewrite get_set_neq by assumption. intros Hr.
        destruct (K4 _ _ Hr) as [Hpath Hname]. split; [assumption|].
        rewrite get_set_neq; [assumption|]. congruence.
    + rewrite Hp. intros k r.
      destruct (JsString.eqb (BasePlugin.name instance) k) eqn:E.
      * apply eqb_eq in E. subst k. rewrite get_set_eq. intros Hr; injection Hr as <-.
        exact Hg.
      * apply eqb_neq in E. rewrite get_set_neq by assumption. apply K5.
    + rewrite Hd, idents_app, idents_inDefaultGroup, Hids.
      apply NoDup_app; [assumption | apply seq_NoDup |].
      intros i Hi Hs. apply in_seq in Hs.
      unfold idents in Hi. apply in_map_iff in Hi. destruct Hi as (gh & <- & Hin).
      rewrite Forall_forall in K7. apply K7 in Hin. lia.
    + rewrite Hd, Hn. apply Forall_app. split.
      * eapply Forall_impl; [|exact K7]. simpl. intros gh [? ?]. split; [assumption | lia].
      * rewrite Forall_forall. intros gh Hin. unfold inDefaultGroup in Hin.
        apply in_map_iff in Hin. destruct Hin as (e & <- & Hin). simpl. split; [reflexivity|].
        assert (In (ident (handler e)) (entryIdents hs)) as Hi
          by (unfold entryIdents; apply in_map_iff; eauto).
        rewrite Hids in Hi. apply in_seq in Hi. lia.
  - destruct H as (Hp & Hf & Hd & Hn & _). specialize (Hd Hwf).
    destruct Hwf as [K1 K2 K3 K4 K5 K6 K7].
    constructor; rewrite ?Hp, ?Hf, ?Hd; auto.
    eapply Forall_impl; [|exact K7]. simpl. intros gh [? ?]. split; [assumption | lia].
Qed.

(** A load at a path that is not indexed keeps the two indices in step. *)
Lemma loadFromFile_indexedByFile st :
  JsMap.get filePath (pluginsByFile st) = None ->
  indexedByFile st ->
  indexedByFile (snd (PluginManager.loadFromFile env world filePath options kind st)).
Proof.
  intros Hfresh Hidx.
  pose proof (loadFromFile_cases env world filePath options kind st) as H.
  destruct (PluginManager.loadFromFile env world filePath options kind st) as [[[]|e] st'];
    simpl.
  - destruct H as (mod_ & instance & hs & _ & _ & Hfree & _ & Hp & Hf & _).
    unfold indexedByFile. rewrite Hp, Hf. intros k r.
    destruct (JsString.eqb (BasePlugin.name instance) k) eqn:E.
    + apply eqb_eq in E. subst k. rewrite get_set_eq. intros Hr; injection Hr as <-.
      simpl. apply get_set_eq.
    + apply eqb_neq in E. rewrite get_set_neq by assumption. intros Hr.
      apply Hidx in Hr. rewrite get_set_neq; [assumption|]. congruence.
  - destruct H as (Hp & Hf & _). unfold indexedByFile. rewrite Hp, Hf. exact Hidx.
Qed.

(** A load never touches the entry of another path. *)
Lemma loadFromFile_other_paths st p :
  p <> filePath ->
  JsMap.get p (pluginsByFile (snd (PluginManager.loadFromFile env world filePath options kind st)))
  = JsMap.get p (pluginsByFile st).
Proof.
  intros Hne.
  pose proof (loadFromFile_cases env world filePath options kind st) as H.
  destruct (PluginManager.loadFromFile env world filePath options kind st) as [[[]|e] st'];
    simpl.
  - destruct H as (mod_ & instance & hs & _ & _ & _ & _ & _ & Hf & _).
    rewrite Hf. apply get_set_neq. congruence.
  - destruct H as (_ & Hf & _). rewrite Hf. reflexivity.
Qed.

End LoadPreserves.

(** ** Loading a file *)

Lemma recordExists_same st st' :
  plugins st' = plugins st -> pluginsByFile st' = pluginsByFile st ->
  forall r, recordExists st' r <-> recordExists st r.
Proof.
  intros Hp Hf r. unfold recordExists, PluginManager.list. rewrite Hp, Hf. tauto.
Qed.

(** C1. A call of [loadFromFile] that throws, whatever the step that
    failed (the import, no export, an export that is no constructor or
    whose constructor throws, an object that is no [BasePlugin], a taken
    name, a keyword of which [filters.command] makes no filter while the
    handlers are being registered, [onLoad]), leaves both maps exactly as
    they were, so that no record of the attempt exists, and leaves the
    dispatcher exactly as it was: no handler object created by the attempt
    is subscribed. Every handler the attempt added was removed by it; when
    [onLoad] was called and threw, the calls after the import are: the
    construction, the additions, [onLoad], the removal of each handler
    added, and the error thrown is the one of [onLoad]. *)
Theorem loadFromFile_failure_rolls_back
    env world filePath options kind st e st' :
  wf st ->
  PluginManager.loadFromFile env world filePath options kind st = (Throw e, st') ->
  plugins st' = plugins st
  /\ pluginsByFile st' = pluginsByFile st
  /\ (forall r, recordExists st' r <-> recordExists st r)
  /\ dispatcher st' = dispatcher st
  /\ (forall h, nextIdent st <= ident h -> ~ subscribed h st')
  /\ exists t,
       failure env world filePath options st e t
       /\ trace st' = trace st ++ DynamicImport (moduleUrlOf world filePath options) :: t
       /\ (forall i, In (AddUpdateHandler i) t -> In (RemoveUpdateHandler i) t)
       /\ (forall name, In (CallOnLoad name) t ->
             exists PluginCtor n reason,
               e = Foreign reason /\
               t = [New PluginCtor] ++ map AddUpdateHandler (seq (nextIdent st) n) ++
                   [CallOnLoad name] ++ map RemoveUpdateHandler (seq (nextIdent st) n)).
Proof.
  intros Hwf Hload.
  pose proof (loadFromFile_cases env world filePath options kind st) as H.
  rewrite Hload in H. destruct H as (Hp & Hf & Hd & Hn & t & F & Ht).
  specialize (Hd Hwf).
  split; [exact Hp|]. split; [exact Hf|].
  split; [apply recordExists_same; assumption|].
  split; [exact Hd|]. split.
  - intros h Hle. unfold subscribed. rewrite Hd.
    apply (wf_fresh_idents Hwf Hle).
  - exists t. split; [exact F|]. split; [exact Ht|]. split.
    + exact (failure_adds_are_removed F).
    + intros name. exact (failure_onLoad name F).
Qed.

Lemma pair_of_fst {A B : Type} (p : A * B) (a : A) : fst p = a -> p = (a, snd p).
Proof. destruct p; simpl; intros ->; reflexivity. Qed.

(** C1 at the sample directory: with [ping.ts] loaded, loading
    [faulty.ts], whose [onLoad] throws, changes neither map nor the
    dispatcher. *)
Lemma loadFromFile_failure_rolls_back_witness :
  wf (Samples.loaded "/plugins/user/ping.ts")
  /\ fst (PluginManager.loadFromFile Samples.slashEnv Samples.world
            (js "/plugins/user/faulty.ts") Samples.notForced user
            (Samples.loaded "/plugins/user/ping.ts"))
     = Throw (Foreign (js "load failed"))
  /\ plugins (snd (PluginManager.loadFromFile Samples.slashEnv Samples.world
                     (js "/plugins/user/faulty.ts") Samples.notForced user
                     (Samples.loaded "/plugins/user/ping.ts")))
     = plugins (Samples.loaded "/plugins/user/ping.ts")
  /\ dispatcher (snd (PluginManager.loadFromFile Samples.slashEnv Samples.world
                        (js "/plugins/user/faulty.ts") Samples.notForced user
                        (Samples.loaded "/plugins/user/ping.ts")))
     = dispatcher (Samples.loaded "/plugins/user/ping.ts").
Proof.
  assert (wf (Samples.loaded "/plugins/user/ping.ts")) as Hwf
    by (apply loadFromFile_wf, wf_initial).
  assert (PluginManager.loadFromFile Samples.slashEnv Samples.world
            (js "/plugins/user/faulty.ts") Samples.notForced user
            (Samples.loaded "/plugins/user/ping.ts")
          = (Throw (Foreign (js "load failed")),
             snd (PluginManager.loadFromFile Samples.slashEnv Samples.world
                    (js "/plugins/user/faulty.ts") Samples.notForced user
                    (Samples.loaded "/plugins/user/ping.ts")))) as Hload
    by (apply pair_of_fst; vm_compute; reflexivity).
  split; [exact Hwf|]. split; [vm_compute; reflexivity|].
  destruct (loadFromFile_failure_rolls_back
              Samples.slashEnv Samples.world (js "/plugins/user/faulty.ts")
              Samples.notForced user Hwf Hload) as (Hp & _ & _ & Hd & _).
  split; assumption.
Defined.

(** The failure while the handlers are registered, at the sample
    directory: the keyword [c++] of [cpp.ts] is no regular expression, the
    load throws the error of [filters.command] after the construction,
    and no handler was added. *)
Example loadFromFile_invalid_keyword_adds_nothing :
  PluginManager.loadFromFile Samples.slashEnv Samples.world
    (js "/plugins/user/cpp.ts") Samples.notForced user PluginManager.initial
  = (Throw (Foreign (js "Invalid regular expression: Nothing to repeat")),
     traced PluginManager.initial
       [DynamicImport (js "file:///plugins/user/cpp.ts");
        New (Samples.classOf Samples.cplusplus)]).
Proof. vm_compute. reflexivity. Qed.

Lemma coalesce_truthy (a b : JsValue) : truthy a = true -> coalesce a b = a.
Proof. destruct a; simpl; congruence. Qed.

Ltac same_module Himp :=
  repeat match goal with
  | H : dynamicImport _ _ = Rejected _ |- _ => rewrite Himp in H; discriminate H
  | H : dynamicImport _ _ = Fulfilled ?m |- _ =>
      tryif constr_eq H Himp then fail else (rewrite Himp in H; injection H as <-)
  end.

Section Exports.
Variable env : Env.
Variable world : World.
Variable filePath : jsstring.
Variable options : LoadOptions.
Variable kind : PluginKind.
Variable st : State.
Variable mod_ : ModuleNamespace.
Hypothesis Himport :
  dynamicImport world (moduleUrlOf world filePath options) = Fulfilled mod_.

Lemma loadFromFile_constructs :
  truthy (coalesce (default mod_) (Plugin mod_)) = true ->
  exists t,
    trace (snd (PluginManager.loadFromFile env world filePath options kind st))
    = trace st ++ DynamicImport (moduleUrlOf world filePath options)
        :: New (coalesce (default mod_) (Plugin mod_)) :: t.
Proof.
  intros Htruthy.
  pose proof (loadFromFile_cases env world filePath options kind st) as H.
  destruct (PluginManager.loadFromFile env world filePath options kind st) as [[[]|e] st'];
    simpl.
  - destruct H as (m & instance & hs & Hi & _ & _ & _ & _ & _ & _ & _ & _ & _ & Ht).
    same_module Himport. rewrite Ht. simpl. eauto.
  - destruct H as (_ & _ & _ & _ & t & F & Ht). rewrite Ht.
    inversion F; subst; same_module Himport; simpl; eauto; congruence.
Qed.

(** C6, as the code has it. Once the module is evaluated, [loadFromFile]
    throws the "no export" error if and only if [mod.default ?? mod.Plugin]
    is falsy: there is no default export (or it is [null]) and no truthy
    export named [Plugin] either, or the default export is itself a falsy
    value. The value passed to [new] is the default export when that is
    truthy, and the export named [Plugin] when there is no default export
    and [Plugin] is truthy. *)
Theorem loadFromFile_no_export_iff_nothing_truthy :
  (fst (PluginManager.loadFromFile env world filePath options kind st)
     = Throw (PluginFileHasNoExport filePath)
   <-> truthy (coalesce (default mod_) (Plugin mod_)) = false)
  /\ (truthy (default mod_) = true ->
      exists t,
        trace (snd (PluginManager.loadFromFile env world filePath options kind st))
        = trace st ++ DynamicImport (moduleUrlOf world filePath options)
            :: New (default mod_) :: t)
  /\ (default mod_ = JsUndefined \/ default mod_ = JsNull ->
      truthy (Plugin mod_) = true ->
      exists t,
        trace (snd (PluginManager.loadFromFile env world filePath options kind st))
        = trace st ++ DynamicImport (moduleUrlOf world filePath options)
            :: New (Plugin mod_) :: t).
Proof.
  split; [|split].
  - pose proof (loadFromFile_cases env world filePath options kind st) as H.
    destruct (PluginManager.loadFromFile env world filePath options kind st)
      as [[[]|e] st']; simpl.
    + destruct H as (m & instance & hs & Hi & Hc & _). same_module Himport.
      rewrite Hc. simpl. split; discriminate.
    + destruct H as (_ & _ & _ & _ & t & F & _). split.
      * intros He. injection He as ->. inversion F; subst. same_module Himport.
        assumption.
      * intros Hfalsy. inversion F; subst; same_module Himport;
          try reflexivity; try congruence;
          match goal with Hc : coalesce _ _ = _ |- _ =>
            rewrite Hc in Hfalsy; discriminate Hfalsy end.
  - intros Ht.
    pose proof (coalesce_truthy (default mod_) (Plugin mod_) Ht) as Hc.
    destruct loadFromFile_constructs as [t Htrace]; [rewrite Hc; assumption|].
    exists t. rewrite Htrace, Hc. reflexivity.
  - intros Hd Ht.
    assert (coalesce (default mod_) (Plugin mod_) = Plugin mod_) as Hc
      by (destruct Hd as [-> | ->]; reflexivity).
    destruct loadFromFile_constructs as [t Htrace]; [rewrite Hc; assumption|].
    exists t. rewrite Htrace, Hc. reflexivity.
Qed.

End Exports.

(** C6 at the sample directory: [greeter.js] has no default export, only
    a class exported as [Plugin], and loads; [zero.ts] has the default
    export [false] and fails with the "no export" error. *)
Lemma loadFromFile_no_default_export_loads :
  (exists m,
     dynamicImport Samples.world
       (moduleUrlOf Samples.world (js "/plugins/user/greeter.js") Samples.notForced)
     = Fulfilled m
     /\ default m = JsUndefined)
  /\ fst (PluginManager.loadFromFile Samples.slashEnv Samples.world
            (js "/plugins/user/greeter.js") Samples.notForced user PluginManager.initial)
     = Ok tt
  /\ (exists m,
        dynamicImport Samples.world
          (moduleUrlOf Samples.world (js "/plugins/user/zero.ts") Samples.notForced)
        = Fulfilled m
        /\ default m = JsBoolean false)
  /\ fst (PluginManager.loadFromFile Samples.slashEnv Samples.world
            (js "/plugins/user/zero.ts") Samples.notForced user PluginManager.initial)
     = Throw (PluginFileHasNoExport (js "/plugins/user/zero.ts")).
Proof.
  split; [eexists; split; vm_compute; reflexivity|]. split; [vm_compute; reflexivity|].
  split; [eexists; split; vm_compute; reflexivity|]. vm_compute; reflexivity.
Qed.

(** C6 at [empty.ts], which exports nothing. *)
Lemma loadFromFile_no_export_witness :
  fst (PluginManager.loadFromFile Samples.slashEnv Samples.world
         (js "/plugins/user/empty.ts") Samples.notForced user PluginManager.initial)
  = Throw (PluginFileHasNoExport (js "/plugins/user/empty.ts")).
Proof.
  apply (proj1 (loadFromFile_no_export_iff_nothing_truthy
                  Samples.slashEnv Samples.world (js "/plugins/user/empty.ts")
                  Samples.notForced user PluginManager.initial
                  (mod_ := Samples.defaultExport JsUndefined) eq_refl)).
  reflexivity.
Defined.

(** C7. When a file has been loaded and a second file produces a plugin
    that declares the same name, loading the second file throws the
    duplicate-name error after the import and the construction and before
    any handler is added: the dispatcher, the counter of handler objects
    and both maps are as the first load left them. The record of the
    first plugin is still the entry of its name and of its path, and it
    is the only record of that name in either index. *)
Theorem loadFromFile_second_of_a_name_is_rejected
    env world1 world2 file1 file2 options1 options2 kind1 kind2
    st0 st1 mod1 mod2 plugin1 plugin2 :
  wf st0 ->
  file1 <> file2 ->
  dynamicImport world1 (moduleUrlOf world1 file1 options1) = Fulfilled mod1 ->
  coalesce (default mod1) (Plugin mod1) = JsClass (Fulfilled (PluginInstance plugin1)) ->
  dynamicImport world2 (moduleUrlOf world2 file2 options2) = Fulfilled mod2 ->
  coalesce (default mod2) (Plugin mod2) = JsClass (Fulfilled (PluginInstance plugin2)) ->
  BasePlugin.name plugin1 = BasePlugin.name plugin2 ->
  PluginManager.loadFromFile env world1 file1 options1 kind1 st0 = (Ok tt, st1) ->
  exists record1 st2,
    PluginManager.loadFromFile env world2 file2 options2 kind2 st1
    = (Throw (DuplicatePluginName (BasePlugin.name plugin2)), st2)
    /\ trace st2 = trace st1 ++
         [DynamicImport (moduleUrlOf world2 file2 options2);
          New (coalesce (default mod2) (Plugin mod2))]
    /\ dispatcher st2 = dispatcher st1
    /\ plugins st2 = plugins st1
    /\ pluginsByFile st2 = pluginsByFile st1
    /\ PluginRecord.instance record1 = plugin1
    /\ PluginRecord.filePath record1 = file1
    /\ JsMap.get (BasePlugin.name plugin1) (plugins st1) = Some record1
    /\ JsMap.get file1 (pluginsByFile st1) = Some record1
    /\ JsMap.get (BasePlugin.name plugin1) (plugins st2) = Some record1
    /\ JsMap.get file1 (pluginsByFile st2) = Some record1
    /\ JsMap.get file2 (pluginsByFile st2) = JsMap.get file2 (pluginsByFile st0)
    /\ (forall r, recordExists st2 r ->
          PluginRecord.name r = BasePlugin.name plugin2 -> r = record1).
Proof.
  intros Hwf0 Hfiles Hi1 Hc1 Hi2 Hc2 Hname Hload1.
  assert (wf st1) as Hwf1.
  { pose proof (loadFromFile_wf env world1 file1 options1 kind1 Hwf0) as H.
    rewrite Hload1 in H. exact H. }
  pose proof (loadFromFile_cases env world1 file1 options1 kind1 st0) as H1.
  rewrite Hload1 in H1.
  destruct H1 as (m & p & hs & Hi & Hc & Hfree & _ & Hp & Hf & _).
  same_module Hi1. rewrite Hc1 in Hc. injection Hc as <-.
  set (record1 := recordOf plugin1 file1 kind1 hs) in *.
  assert (JsMap.get (BasePlugin.name plugin1) (plugins st1) = Some record1) as Hrec
    by (rewrite Hp; apply get_set_eq).
  assert (JsMap.get file1 (pluginsByFile st1) = Some record1) as Hrecf
    by (rewrite Hf; apply get_set_eq).
  pose proof (loadFromFile_cases env world2 file2 options2 kind2 st1) as H2.
  destruct (PluginManager.loadFromFile env world2 file2 options2 kind2 st1)
    as [[[]|e] st2].
  - destruct H2 as (m & p & hs2 & Hi & Hc & Hfree2 & _).
    same_module Hi2. rewrite Hc2 in Hc. injection Hc as <-.
    rewrite <- Hname in Hfree2. congruence.
  - destruct H2 as (Hp2 & Hf2 & Hd2 & _ & t & F & Ht).
    exists record1, st2.
    assert (e = DuplicatePluginName (BasePlugin.name plugin2)
            /\ t = [New (coalesce (default mod2) (Plugin mod2))]) as [-> ->].
    { inversion F; subst; same_module Hi2; rewrite Hc2 in *.
      - match goal with Hf : truthy _ = false |- _ => discriminate Hf end.
      - match goal with Hn : forall c, _ <> JsClass c |- _ =>
          exfalso; exact (Hn _ eq_refl) end.
      - match goal with Hc : JsClass _ = JsClass _ |- _ => discriminate Hc end.
      - match goal with Hc : JsClass _ = JsClass _ |- _ => discriminate Hc end.
      - match goal with Hc : JsClass _ = JsClass _ |- _ => injection Hc as <- end.
        split; reflexivity.
      - match goal with Hc : JsClass _ = JsClass _ |- _ => injection Hc as <- end.
        match goal with Hh : JsMap.has _ _ = false |- _ =>
          apply has_false in Hh; rewrite <- Hname in Hh; congruence end.
      - match goal with Hc : JsClass _ = JsClass _ |- _ => injection Hc as <- end.
        match goal with Hh : JsMap.has _ _ = false |- _ =>
          apply has_false in Hh; rewrite <- Hname in Hh; congruence end. }
    split; [reflexivity|]. split; [exact Ht|]. split; [exact (Hd2 Hwf1)|].
    split; [exact Hp2|]. split; [exact Hf2|]. split; [reflexivity|].
    split; [reflexivity|]. split; [exact Hrec|]. split; [exact Hrecf|].
    split; [rewrite Hp2; exact Hrec|]. split; [rewrite Hf2; exact Hrecf|].
    split; [rewrite Hf2, Hf; apply get_set_neq; exact Hfiles|].
    intros r Hr Hrname. rewrite <- Hname in Hrname.
    destruct Hr as [Hr|Hr].
    + unfold PluginManager.list in Hr. rewrite Hp2 in Hr.
      apply (In_values _ _ (wf_keys Hwf1)) in Hr. destruct Hr as [k Hk].
      pose proof (wf_names Hwf1 _ Hk) as Hkn. congruence.
    + rewrite Hf2 in Hr.
      apply (In_values _ _ (wf_fileKeys Hwf1)) in Hr. destruct Hr as [k Hk].
      destruct (wf_paths Hwf1 _ Hk) as [_ Hkn]. congruence.
Qed.

(** C7 at the sample directory: [ping2.ts] declares the name of [ping.ts]. *)
Lemma loadFromFile_second_of_a_name_witness :
  fst (PluginManager.loadFromFile Samples.slashEnv Samples.world
         (js "/plugins/user/ping2.ts") Samples.notForced user
         (Samples.loaded "/plugins/user/ping.ts"))
  = Throw (DuplicatePluginName (js "ping"))
  /\ map PluginRecord.filePath
       (PluginManager.list
          (snd (PluginManager.loadFromFile Samples.slashEnv Samples.world
                  (js "/plugins/user/ping2.ts") Samples.notForced user
                  (Samples.loaded "/plugins/user/ping.ts"))))
     = [js "/plugins/user/ping.ts"].
Proof.
  unfold Samples.loaded.
  assert (fst (PluginManager.loadFromFile Samples.slashEnv Samples.world
                 (js "/plugins/user/ping.ts") Samples.notForced user
                 PluginManager.initial) = Ok tt) as Hfirst
    by (vm_compute; reflexivity).
  apply pair_of_fst in Hfirst.
  assert (dynamicImport Samples.world
            (moduleUrlOf Samples.world (js "/plugins/user/ping.ts") Samples.notForced)
          = Fulfilled (Samples.defaultExport (Samples.classOf Samples.ping))) as Hi1
    by (vm_compute; reflexivity).
  assert (dynamicImport Samples.world
            (moduleUrlOf Samples.world (js "/plugins/user/ping2.ts") Samples.notForced)
          = Fulfilled (Samples.defaultExport (Samples.classOf Samples.pingAgain))) as Hi2
    by (vm_compute; reflexivity).
  assert (js "/plugins/user/ping.ts" <> js "/plugins/user/ping2.ts") as Hfiles
    by (vm_compute; discriminate).
  destruct (@loadFromFile_second_of_a_name_is_rejected
              Samples.slashEnv Samples.world Samples.world
              (js "/plugins/user/ping.ts") (js "/plugins/user/ping2.ts")
              Samples.notForced Samples.notForced user user
              PluginManager.initial _ _ _ Samples.ping Samples.pingAgain
              wf_initial Hfiles Hi1 eq_refl Hi2 eq_refl eq_refl Hfirst)
    as (record1 & st2 & Hload & _ & _ & Hp & _).
  rewrite Hload. cbn [fst snd]. split; [reflexivity|].
  unfold PluginManager.list. rewrite Hp. vm_compute; reflexivity.
Defined.

(** ** Unloading *)

Lemma unloadRecord_spec record st :
  PluginManager.unloadRecord record st =
  match BasePlugin.onUnload (PluginRecord.instance record) with
  | Fulfilled _ =>
      (Ok tt,
       {| plugins := JsMap.delete (PluginRecord.name record) (plugins st);
          pluginsByFile := JsMap.delete (PluginRecord.filePath record) (pluginsByFile st);
          dispatcher := removeAll (PluginRecord.handlerIds record) (dispatcher st);
          nextIdent := nextIdent st;
          trace := trace st ++
            map RemoveUpdateHandler (entryIdents (PluginRecord.handlerIds record)) ++
            [CallOnUnload (BasePlugin.name (PluginRecord.instance record))] |})
  | Rejected reason =>
      (Throw (Foreign reason),
       {| plugins := plugins st;
          pluginsByFile := pluginsByFile st;
          dispatcher := removeAll (PluginRecord.handlerIds record) (dispatcher st);
          nextIdent := nextIdent st;
          trace := trace st ++
            map RemoveUpdateHandler (entryIdents (PluginRecord.handlerIds record)) ++
            [CallOnUnload (BasePlugin.name (PluginRecord.instance record))] |})
  end.
Proof.
  unfold PluginManager.unloadRecord. unfold bind at 1.
  rewrite unregisterHandlers_spec.
  unfold bind at 1, await. unfold bind at 1, emit, modify. cbn beta iota.
  cbn [plugins pluginsByFile dispatcher nextIdent trace].
  destruct (BasePlugin.onUnload (PluginRecord.instance record)) as [[]|reason];
    cbn; rewrite <- app_assoc; reflexivity.
Qed.

Lemma unloadUser_spec name st :
  PluginManager.unloadUser name st =
  match JsMap.get name (plugins st) with
  | None => (Throw (PluginNotFound name), st)
  | Some record =>
      match PluginRecord.kind record with
      | system => (Throw (SystemPluginCannotBeUnloaded name), st)
      | user => PluginManager.unloadRecord record st
      end
  end.
Proof.
  unfold PluginManager.unloadUser, bind, gets.
  destruct (JsMap.get name (plugins st)) as [record|]; [|reflexivity].
  destruct (PluginRecord.kind record); reflexivity.
Qed.

(** C5, as the code has it. Unloading a user plugin by name removes each
    handler of its record from the dispatcher and then calls the unload
    hook. When the hook returns, the record is deleted from the name index
    and from the path index. When the hook throws, its error is the
    error of the call, and both maps still are as they were, the record
    included: nothing after the hook runs. *)
Theorem unloadUser_deletes_record_only_after_hook_returns name record st :
  wf st ->
  JsMap.get name (plugins st) = Some record ->
  PluginRecord.kind record = user ->
  (forall e, In e (PluginRecord.handlerIds record) ->
     ~ subscribed (handler e) (snd (PluginManager.unloadUser name st)))
  /\ trace (snd (PluginManager.unloadUser name st))
     = trace st ++
       map RemoveUpdateHandler (entryIdents (PluginRecord.handlerIds record)) ++
       [CallOnUnload (BasePlugin.name (PluginRecord.instance record))]
  /\ match BasePlugin.onUnload (PluginRecord.instance record) with
     | Fulfilled _ =>
         fst (PluginManager.unloadUser name st) = Ok tt
         /\ plugins (snd (PluginManager.unloadUser name st))
            = JsMap.delete name (plugins st)
         /\ pluginsByFile (snd (PluginManager.unloadUser name st))
            = JsMap.delete (PluginRecord.filePath record) (pluginsByFile st)
         /\ JsMap.get name (plugins (snd (PluginManager.unloadUser name st))) = None
         /\ JsMap.get (PluginRecord.filePath record)
              (pluginsByFile (snd (PluginManager.unloadUser name st))) = None
     | Rejected reason =>
         fst (PluginManager.unloadUser name st) = Throw (Foreign reason)
         /\ plugins (snd (PluginManager.unloadUser name st)) = plugins st
         /\ pluginsByFile (snd (PluginManager.unloadUser name st)) = pluginsByFile st
         /\ JsMap.get name (plugins (snd (PluginManager.unloadUser name st)))
            = Some record
     end.
Proof.
  intros Hwf Hget Hkind.
  pose proof (wf_names Hwf _ Hget) as Hname.
  rewrite unloadUser_spec, Hget, Hkind, unloadRecord_spec.
  assert (forall st',
            dispatcher st' = removeAll (PluginRecord.handlerIds record) (dispatcher st) ->
            forall e, In e (PluginRecord.handlerIds record) ->
            ~ subscribed (handler e) st') as Hgone.
  { intros st' Hd e Hin. unfold subscribed. rewrite Hd.
    apply removeAll_gone; [exact (wf_idents Hwf) | | exact (wf_entries Hwf _ Hget) | exact Hin].
    eapply Forall_impl; [|exact (wf_groups Hwf)]. simpl. tauto. }
  destruct (BasePlugin.onUnload (PluginRecord.instance record)) as [[]|reason];
    cbn [fst snd plugins pluginsByFile trace].
  - split; [apply Hgone; reflexivity|]. split; [reflexivity|]. rewrite Hname.
    repeat split; auto using get_delete_eq.
  - split; [apply Hgone; reflexivity|]. repeat split; auto.
Qed.

(** C5 at the sample directory: [sticky.ts] loads, its unload hook
    throws, and the record is still in both maps after [unloadUser]. *)
Lemma unloadUser_keeps_record_when_hook_throws :
  fst (PluginManager.unloadUser (js "sticky") (Samples.loaded "/plugins/user/sticky.ts"))
  = Throw (Foreign (js "unload failed"))
  /\ JsMap.has (js "sticky")
       (plugins (snd (PluginManager.unloadUser (js "sticky")
                        (Samples.loaded "/plugins/user/sticky.ts")))) = true
  /\ JsMap.has (js "/plugins/user/sticky.ts")
       (pluginsByFile (snd (PluginManager.unloadUser (js "sticky")
                              (Samples.loaded "/plugins/user/sticky.ts")))) = true
  /\ map PluginRecord.kind
       (PluginManager.list (Samples.loaded "/plugins/user/sticky.ts")) = [user].
Proof. repeat split; vm_compute; reflexivity. Qed.

Lemma greeterLoaded_is_loaded :
  Samples.loaded "/plugins/user/greeter.js" = Samples.greeterLoaded.
Proof. vm_compute. reflexivity. Qed.

Lemma wf_greeterLoaded : wf Samples.greeterLoaded.
Proof.
  rewrite <- greeterLoaded_is_loaded. apply loadFromFile_wf, wf_initial.
Qed.

(** C5 at the sample directory: [greeter.js] is loaded and unloaded
    again; its unload hook returns, and both maps are empty afterwards. *)
Lemma unloadUser_deletes_record_witness :
  fst (PluginManager.unloadUser (js "greeter") Samples.greeterLoaded) = Ok tt
  /\ plugins (snd (PluginManager.unloadUser (js "greeter") Samples.greeterLoaded)) = []
  /\ pluginsByFile (snd (PluginManager.unloadUser (js "greeter") Samples.greeterLoaded)) = [].
Proof.
  destruct (@unloadUser_deletes_record_only_after_hook_returns
              (js "greeter") Samples.greeterRecord Samples.greeterLoaded
              wf_greeterLoaded eq_refl eq_refl)
    as (_ & _ & Hresult & Hp & Hf & _).
  split; [exact Hresult|]. rewrite Hp, Hf. split; reflexivity.
Defined.

(** ** Invariants along the operations *)

Lemma forEach_invariant {A : Type} (P : State -> Prop) (body : A -> M unit) xs :
  (forall x st, P st -> P (snd (body x st))) ->
  forall st, P st -> P (snd (forEach xs body st)).
Proof.
  intros Hbody. induction xs as [|x xs IH]; intros st HP; simpl; [exact HP|].
  unfold bind. specialize (Hbody x st HP).
  destruct (body x st) as [[[]|e] st1]; simpl in *; auto.
Qed.

Lemma wf_after_unregister st hs :
  wf st ->
  Forall (fun gh => fst gh = 0 /\ ident (snd gh) < nextIdent st)
    (removeAll hs (dispatcher st))
  /\ NoDup (idents (removeAll hs (dispatcher st))).
Proof.
  intros Hwf. split.
  - pose proof (wf_groups Hwf) as Hg. rewrite Forall_forall in *.
    intros x Hx. apply Hg. eapply removeAll_incl; eassumption.
  - apply removeAll_NoDup, (wf_idents Hwf).
Qed.

Lemma unloadRecord_wf record st :
  wf st ->
  JsMap.get (PluginRecord.name record) (plugins st) = Some record ->
  wf (snd (PluginManager.unloadRecord record st)).
Proof.
  intros Hwf Hget. rewrite unloadRecord_spec.
  destruct (wf_after_unregister (PluginRecord.handlerIds record) Hwf) as [Hg Hnd].
  destruct Hwf as [K1 K2 K3 K4 K5 K6 K7].
  destruct (BasePlugin.onUnload (PluginRecord.instance record)) as [[]|reason];
    constructor; cbn [snd plugins pluginsByFile dispatcher nextIdent]; auto.
  - apply NoDup_keys_delete, K1.
  - apply NoDup_keys_delete, K2.
  - intros k r.
    destruct (JsString.eqb (PluginRecord.name record) k) eqn:E.
    + apply eqb_eq in E. subst k. rewrite get_delete_eq. discriminate.
    + apply eqb_neq in E. rewrite get_delete_neq by assumption. apply K3.
  - intros p r.
    destruct (JsString.eqb (PluginRecord.filePath record) p) eqn:E.
    + apply eqb_eq in E. subst p. rewrite get_delete_eq. discriminate.
    + apply eqb_neq in E. rewrite get_delete_neq by assumption. intros Hr.
      destruct (K4 _ _ Hr) as [Hpath Hname]. split; [assumption|].
      rewrite get_delete_neq; [assumption|].
      intros Heq. rewrite <- Heq in Hname. congruence.
  - intros k r.
    destruct (JsString.eqb (PluginRecord.name record) k) eqn:E.
    + apply eqb_eq in E. subst k. rewrite get_delete_eq. discriminate.
    + apply eqb_neq in E. rewrite get_delete_neq by assumption. apply K5.
Qed.

Lemma unloadRecord_indexedByFile record st :
  wf st -> indexedByFile st ->
  JsMap.get (PluginRecord.name record) (plugins st) = Some record ->
  indexedByFile (snd (PluginManager.unloadRecord record st)).
Proof.
  intros Hwf Hidx Hget. rewrite unloadRecord_spec.
  destruct (BasePlugin.onUnload (PluginRecord.instance record)) as [[]|reason];
    unfold indexedByFile; cbn [snd plugins pluginsByFile]; [|exact Hidx].
  intros k r.
  destruct (JsString.eqb (PluginRecord.name record) k) eqn:E.
  - apply eqb_eq in E. subst k. rewrite get_delete_eq. discriminate.
  - apply eqb_neq in E. rewrite get_delete_neq by assumption. intros Hr.
    pose proof (Hidx _ _ Hr) as Hrf. rewrite get_delete_neq; [assumption|].
    intros Heq. rewrite <- Heq in Hrf. rewrite (Hidx _ _ Hget) in Hrf.
    injection Hrf as ->. apply (wf_names Hwf) in Hr. congruence.
Qed.



(** ** Scanning a directory *)

Lemma wf_ignoresTrace : ignoresTrace wf.
Proof. intros st t [K1 K2 K3 K4 K5 K6 K7]. constructor; assumption. Qed.

Lemma indexedByFile_ignoresTrace : ignoresTrace indexedByFile.
Proof. intros st t H. exact H. Qed.

Lemma scanInvariant_ignoresTrace st0 : ignoresTrace (scanInvariant st0).
Proof.
  intros st t (H1 & H2 & H3). split; [|split].
  - apply wf_ignoresTrace, H1.
  - exact H2.
  - exact H3.
Qed.

Lemma scanInvariant_same st0 st st' :
  plugins st' = plugins st -> pluginsByFile st' = pluginsByFile st ->
  dispatcher st' = dispatcher st -> nextIdent st' = nextIdent st ->
  scanInvariant st0 st -> scanInvariant st0 st'.
Proof.
  intros Hp Hf Hd Hn H.
  apply (scanInvariant_ignoresTrace (trace st')) in H.
  rewrite <- Hp, <- Hf, <- Hd, <- Hn, state_eta in H. exact H.
Qed.

Lemma scanInvariant_refl st : wf st -> indexedByFile st -> scanInvariant st st.
Proof. intros; split; [|split]; auto. Qed.

Section Scan.
Variable env : Env.
Variable world : World.
Variable pluginDir : jsstring.
Variable kind : PluginKind.
Variable options : LoadOptions.

Lemma loadEntry_spec entry st :
  PluginManager.loadEntry env world pluginDir kind options entry st =
  if isFile entry && isPluginFile (entryName entry)
     && negb (JsMap.has (join world pluginDir (entryName entry)) (pluginsByFile st))
  then PluginManager.loadFromFile env world (join world pluginDir (entryName entry))
         options kind st
  else (Ok tt, st).
Proof.
  unfold PluginManager.loadEntry.
  destruct (isFile entry); [|reflexivity].
  destruct (isPluginFile (entryName entry)); [|reflexivity].
  unfold bind, gets. cbn.
  destruct (JsMap.has _ (pluginsByFile st)); reflexivity.
Qed.

Lemma loadEntry_invariant st0 entry st :
  scanInvariant st0 st ->
  scanInvariant st0 (snd (PluginManager.loadEntry env world pluginDir kind options entry st)).
Proof.
  intros (Hwf & Hidx & Hold). rewrite loadEntry_spec.
  destruct (isFile entry && isPluginFile (entryName entry)
            && negb (JsMap.has (join world pluginDir (entryName entry)) (pluginsByFile st)))
    eqn:E; [|split; [|split]; assumption].
  apply andb_true_iff in E. destruct E as [_ E].
  apply negb_true_iff, has_false in E.
  split; [|split].
  - apply loadFromFile_wf, Hwf.
  - apply loadFromFile_indexedByFile; assumption.
  - intros p r Hr. rewrite loadFromFile_other_paths; [auto|].
    intros ->. apply Hold in Hr. congruence.
Qed.

Lemma loadDir_invariant st0 st :
  scanInvariant st0 st ->
  scanInvariant st0 (snd (PluginManager.loadDir env world pluginDir kind options st)).
Proof.
  intros Hinv. unfold PluginManager.loadDir.
  unfold bind at 1, emit at 1, modify. cbn beta iota.
  destruct (access world pluginDir); cbn [negb].
  2:{ cbn. eapply scanInvariant_same; [..|exact Hinv]; reflexivity. }
  unfold bind at 1, await. unfold bind at 1, emit, modify. cbn beta iota.
  destruct (readdir world pluginDir) as [entries|reason]; cbn [settle].
  2:{ cbn. eapply scanInvariant_same; [..|exact Hinv]; reflexivity. }
  apply forEach_invariant.
  - intros entry s. apply loadEntry_invariant.
  - eapply scanInvariant_same; [..|exact Hinv]; reflexivity.
Qed.

End Scan.

(** With both invariants, two records of the same path are one record. *)
Lemma one_record_per_path st r1 r2 :
  wf st -> indexedByFile st ->
  recordExists st r1 -> recordExists st r2 ->
  PluginRecord.filePath r1 = PluginRecord.filePath r2 -> r1 = r2.
Proof.
  intros Hwf Hidx H1 H2 Hpath.
  assert (forall r, recordExists st r ->
            JsMap.get (PluginRecord.filePath r) (pluginsByFile st) = Some r) as Hat.
  { intros r [Hr|Hr].
    - apply (In_values _ _ (wf_keys Hwf)) in Hr. destruct Hr as [k Hk].
      exact (Hidx _ _ Hk).
    - apply (In_values _ _ (wf_fileKeys Hwf)) in Hr. destruct Hr as [p Hp].
      destruct (wf_paths Hwf _ Hp) as [<- _]. exact Hp. }
  apply Hat in H1. apply Hat in H2. congruence.
Qed.

(** C8. In a scan, a file whose path is in the path index is passed over:
    that turn of the loop changes nothing and calls nothing. So, from
    a registry whose indices agree, a scan of any directory, whatever
    the files do, leaves every record that was indexed by path where it
    was, and afterwards the indices agree again and no two records,
    of either index, have the same source path. *)
Theorem loadDir_never_reloads_an_indexed_path
    env world pluginDir kind options st :
  wf st -> indexedByFile st ->
  (forall entry st1,
     JsMap.has (join world pluginDir (entryName entry)) (pluginsByFile st1) = true ->
     PluginManager.loadEntry env world pluginDir kind options entry st1 = (Ok tt, st1))
  /\ (forall p r,
        JsMap.get p (pluginsByFile st) = Some r ->
        JsMap.get p (pluginsByFile
                       (snd (PluginManager.loadDir env world pluginDir kind options st)))
        = Some r)
  /\ wf (snd (PluginManager.loadDir env world pluginDir kind options st))
  /\ indexedByFile (snd (PluginManager.loadDir env world pluginDir kind options st))
  /\ (forall r1 r2,
        recordExists (snd (PluginManager.loadDir env world pluginDir kind options st)) r1 ->
        recordExists (snd (PluginManager.loadDir env world pluginDir kind options st)) r2 ->
        PluginRecord.filePath r1 = PluginRecord.filePath r2 -> r1 = r2).
Proof.
  intros Hwf Hidx.
  destruct (loadDir_invariant env world pluginDir kind options
              (scanInvariant_refl Hwf Hidx)) as (Hwf' & Hidx' & Hold).
  split.
  - intros entry st1 Hhas. rewrite loadEntry_spec, Hhas, andb_false_r. reflexivity.
  - split; [exact Hold|]. split; [exact Hwf'|]. split; [exact Hidx'|].
    intros r1 r2. apply one_record_per_path; assumption.
Qed.

Lemma indexedByFile_greeterLoaded : indexedByFile Samples.greeterLoaded.
Proof.
  rewrite <- greeterLoaded_is_loaded. apply loadFromFile_indexedByFile.
  - reflexivity.
  - intros k r H. discriminate H.
Qed.

(** C8 at the sample directory: with [greeter.js] loaded, a scan of the
    directory that holds [ping.ts] and [greeter.js] keeps the record of
    [greeter.js]. *)
Lemma loadDir_never_reloads_witness :
  JsMap.get (js "/plugins/user/greeter.js")
    (pluginsByFile
       (snd (PluginManager.loadDir Samples.slashEnv Samples.world Samples.userDir
               user Samples.notForced Samples.greeterLoaded)))
  = Some Samples.greeterRecord.
Proof.
  destruct (loadDir_never_reloads_an_indexed_path
              Samples.slashEnv Samples.world Samples.userDir user Samples.notForced
              wf_greeterLoaded indexedByFile_greeterLoaded) as (_ & Hold & _).
  apply Hold. reflexivity.
Defined.

Example loadDir_rescan_loads_only_the_new_file :
  map PluginRecord.filePath
    (PluginManager.list
       (snd (PluginManager.loadDir Samples.slashEnv Samples.world Samples.userDir
               user Samples.notForced Samples.greeterLoaded)))
  = [js "/plugins/user/greeter.js"; js "/plugins/user/ping.ts"].
Proof. vm_compute. reflexivity. Qed.

(** ** Installing a file *)


Section Install.
Variable env : Env.
Variable userPluginDir : jsstring.
Variable world : World.
Variable sourcePath : jsstring.

(** C9, as the code has it. [installUserPluginFromFile] first creates
    the user directory and only then looks at the file name. For a name
    that is no plugin file the call throws, and the creation of the
    directory is the only external call it has made: no file is copied,
    nothing is imported, and the maps and the dispatcher are untouched.
    The error is the "invalid plugin file" error when the directory could
    be created, and the error of [mkdir] when it could not. *)
Theorem installUserPluginFromFile_invalid_name_stops_before_copy st :
  isPluginFile (basename world sourcePath) = false ->
  fst (PluginManager.installUserPluginFromFile env userPluginDir world sourcePath st)
  = match mkdir world userPluginDir with
    | Fulfilled _ => Throw (InvalidPluginFile (basename world sourcePath))
    | Rejected reason => Throw (Foreign reason)
    end
  /\ snd (PluginManager.installUserPluginFromFile env userPluginDir world sourcePath st)
     = {| plugins := plugins st; pluginsByFile := pluginsByFile st;
          dispatcher := dispatcher st; nextIdent := nextIdent st;
          trace := trace st ++ [FsMkdir userPluginDir] |}
  /\ (forall source target,
        In (FsCopyFile source target)
           (trace (snd (PluginManager.installUserPluginFromFile
                          env userPluginDir world sourcePath st))) ->
        In (FsCopyFile source target) (trace st)).
Proof.
  intros Hname. unfold PluginManager.installUserPluginFromFile.
  unfold bind at 1, await. unfold bind at 1, emit, modify. cbn beta iota.
  rewrite Hname.
  destruct (mkdir world userPluginDir) as [[]|reason]; cbn;
    (split; [reflexivity|]); (split; [reflexivity|]);
    intros source target Hin; apply in_app_or in Hin;
    destruct Hin as [Hin|[Hin|[]]]; (assumption || discriminate Hin).
Qed.

End Install.

(** C9 at the sample directory: a declaration file is refused. *)
Lemma installUserPluginFromFile_invalid_name_witness :
  fst (PluginManager.installUserPluginFromFile Samples.slashEnv Samples.userDir
         Samples.world (js "/tmp/ping.d.ts") PluginManager.initial)
  = Throw (InvalidPluginFile (js "ping.d.ts"))
  /\ trace (snd (PluginManager.installUserPluginFromFile Samples.slashEnv Samples.userDir
                   Samples.world (js "/tmp/ping.d.ts") PluginManager.initial))
     = [FsMkdir Samples.userDir].
Proof.
  assert (isPluginFile (basename Samples.world (js "/tmp/ping.d.ts")) = false) as Hname
    by (vm_compute; reflexivity).
  destruct (installUserPluginFromFile_invalid_name_stops_before_copy
              Samples.slashEnv Samples.userDir Samples.world (js "/tmp/ping.d.ts")
              PluginManager.initial Hname) as (Hresult & Hstate & _).
  split; [exact Hresult|]. rewrite Hstate. reflexivity.
Defined.

(** C9 where the user directory cannot be created: the call for a
    declaration file ends with the error of [mkdir], not with the "invalid
    plugin file" error. *)
Lemma installUserPluginFromFile_mkdir_error_comes_first :
  isPluginFile (basename Samples.readOnlyWorld (js "/tmp/ping.d.ts")) = false
  /\ fst (PluginManager.installUserPluginFromFile Samples.slashEnv Samples.userDir
            Samples.readOnlyWorld (js "/tmp/ping.d.ts") PluginManager.initial)
     = Throw (Foreign (js "EROFS"))
  /\ fst (PluginManager.installUserPluginFromFile Samples.slashEnv Samples.userDir
            Samples.readOnlyWorld (js "/tmp/ping.d.ts") PluginManager.initial)
     <> Throw (InvalidPluginFile (js "ping.d.ts")).
Proof.
  split; [vm_compute; reflexivity|]. split; [vm_compute; reflexivity|].
  vm_compute. discriminate.
Qed.

(** ** The invariants hold in every state the manager reaches *)

Section Reachable.
Variable env : Env.
Variable systemPluginDir userPluginDir : jsstring.

Lemma bind_invariant {A B : Type} (P : State -> Prop) (m : M A) (f : A -> M B) st :
  P (snd (m st)) -> (forall a s, P s -> P (snd (f a s))) -> P (snd (bind m f st)).
Proof.
  intros Hm Hf. unfold bind. destruct (m st) as [[a|e] s]; cbn [snd] in *; auto.
Qed.









End Reachable.

(* ================================================================== *)
(** * Further properties of the code *)
(* ================================================================== *)

(** ** File names *)

Lemma endsWith_iff (s p : jsstring) :
  JsString.endsWith s p = true <-> exists stem, s = stem ++ p.
Proof.
  unfold JsString.endsWith. rewrite startsWith_iff. split.
  - intros [rest H]. exists (rev rest).
    rewrite <- (rev_involutive s), H, rev_app_distr, rev_involutive. reflexivity.
  - intros [stem ->]. exists (rev stem). apply rev_app_distr.
Qed.

Lemma endsWith_app (stem p : jsstring) :
  JsString.endsWith (stem ++ p) p = true.
Proof. apply endsWith_iff. exists stem. reflexivity. Qed.

Lemma endsWith_same_suffix (stem q p : jsstring) :
  JsString.endsWith (stem ++ p) (q ++ p) = JsString.endsWith stem q.
Proof.
  unfold JsString.endsWith. rewrite !rev_app_distr.
  induction (rev p) as [|c r IH]; simpl; [reflexivity|].
  rewrite N.eqb_refl. exact IH.
Qed.

(** X1. [isPluginFile] accepts exactly the names made of any stem, the
    empty one included, followed by [.js], by [.mjs], or by [.ts] when
    the stem does not itself end in [.d]. *)
Theorem isPluginFile_accepts_exactly (fileName : jsstring) :
  isPluginFile fileName = true <->
  (exists stem, fileName = stem ++ js ".js")
  \/ (exists stem, fileName = stem ++ js ".mjs")
  \/ (exists stem, fileName = stem ++ js ".ts"
                   /\ JsString.endsWith stem (js ".d") = false).
Proof.
  unfold isPluginFile. split.
  - destruct (JsString.endsWith fileName (js ".d.ts")) eqn:Ed; [discriminate|].
    rewrite !orb_true_iff, !endsWith_iff.
    intros [[[stem ->]|H]|H]; [|tauto|tauto].
    right; right. exists stem. split; [reflexivity|].
    change (js ".d.ts") with (js ".d" ++ js ".ts") in Ed.
    rewrite endsWith_same_suffix in Ed. exact Ed.
  - intros [[stem ->]|[[stem ->]|[stem [-> Hd]]]].
    + replace (JsString.endsWith (stem ++ js ".js") (js ".d.ts")) with false.
      * rewrite (endsWith_app stem (js ".js")), orb_true_r. reflexivity.
      * unfold JsString.endsWith. rewrite rev_app_distr. reflexivity.
    + replace (JsString.endsWith (stem ++ js ".mjs") (js ".d.ts")) with false.
      * rewrite (endsWith_app stem (js ".mjs")). apply orb_true_r.
      * unfold JsString.endsWith. rewrite rev_app_distr. reflexivity.
    + change (js ".d.ts") with (js ".d" ++ js ".ts").
      rewrite endsWith_same_suffix, Hd.
      rewrite (endsWith_app stem (js ".ts")). reflexivity.
Qed.

(** ** What a command handler is given *)

Lemma nth_In_or_default {A : Type} (n : nat) (l : list A) (d : A) :
  nth n l d = d /\ List.length l <= n \/ In (nth n l d) l.
Proof.
  destruct (Nat.lt_ge_cases n (List.length l)) as [H|H].
  - right. apply nth_In. exact H.
  - left. split; [apply nth_overflow|]; exact H.
Qed.

Lemma In_skipn {A : Type} (n : nat) (l : list A) (x : A) : In x (skipn n l) -> In x l.
Proof.
  revert l; induction n as [|n IH]; intros [|y l]; simpl; auto.
Qed.

(** X2. Whatever the text, the arguments that the routing passes to
    [handlerCommand] are never empty and hold no whitespace, and the
    sub-command is either such a word or the empty string; it is the
    empty string exactly when the text has fewer than two words. *)
Theorem handlerCommand_receives_clean_words
    (this : BasePlugin.t) (message : MessageContext) subCommand args :
  In (CallHandlerCommand message subCommand args)
     (calls (BasePlugin.doHandlerCommand this message)) ->
  (forall arg, In arg args -> arg <> [] /\ noSpace arg)
  /\ noSpace subCommand
  /\ (subCommand = [] <->
      List.length (JsString.whitespaceTokens (BasePlugin.rawText message)) < 2)
  /\ List.length args
     = List.length (JsString.whitespaceTokens (BasePlugin.rawText message)) - 2.
Proof.
  unfold BasePlugin.doHandlerCommand. rewrite tokensOf_tokens.
  set (tokens := JsString.whitespaceTokens (BasePlugin.rawText message)).
  assert (forall token, In token tokens -> token <> [] /\ noSpace token) as Hclean
    by (intros token; apply whitespaceTokens_spec).
  destruct (isOutgoing message); unfold calls; cbn [fst In]; [|tauto].
  intros [H|[]]. injection H as <- <-. split; [|split; [|split]].
  - intros arg Harg. apply Hclean.
    destruct tokens as [|t0 [|t1 ts]]; simpl in *; tauto.
  - destruct tokens as [|t0 [|t1 ts]]; simpl; try constructor.
    apply (Hclean t1). right; left; reflexivity.
  - destruct tokens as [|t0 [|t1 ts]]; simpl; split; auto; try lia.
    intros ->. exfalso. apply (proj1 (Hclean [] (or_intror (or_introl eq_refl)))).
    reflexivity.
  - destruct tokens as [|t0 [|t1 ts]]; simpl; lia.
Qed.

(** X2 at the text [/ping  a.b   c] written by the operator. *)
Lemma handlerCommand_receives_clean_words_witness :
  js "c" <> [] /\ noSpace (js "c").
Proof.
  assert (In (CallHandlerCommand (Samples.messageOf "/ping  a.b   c" true)
                (js "a.b") [js "c"])
             (calls (BasePlugin.doHandlerCommand Samples.ping
                       (Samples.messageOf "/ping  a.b   c" true)))) as Hcall
    by (left; vm_compute; reflexivity).
  exact (proj1 (@handlerCommand_receives_clean_words Samples.ping
                  (Samples.messageOf "/ping  a.b   c" true) (js "a.b") [js "c"] Hcall)
               (js "c") (or_introl eq_refl)).
Defined.

(** X3. For one message, a plugin never has both of its methods called:
    whether the command subscription, a generic subscription or both
    deliver the message, the command subscription calls nothing but
    [handlerCommand], and calls it exactly when the message is outgoing,
    and a generic subscription calls nothing but [handleMessage], and only
    for a message that is not outgoing. *)
Theorem one_message_reaches_at_most_one_method
    (env : Env) (this : BasePlugin.t) (message : MessageContext) :
  (forall call,
     In call (calls (BasePlugin.invokeHandlerCommand this message)) ->
     isOutgoing message = true
     /\ exists subCommand args, call = CallHandlerCommand message subCommand args)
  /\ (isOutgoing message = true ->
      exists subCommand args,
        calls (BasePlugin.invokeHandlerCommand this message)
        = [CallHandlerCommand message subCommand args])
  /\ (forall call,
        In call (calls (BasePlugin.invokeHandlerMessage env this message)) ->
        isOutgoing message = false /\ call = CallHandleMessage message)
  /\ (calls (BasePlugin.invokeHandlerCommand this message) = []
      \/ calls (BasePlugin.invokeHandlerMessage env this message) = []).
Proof.
  unfold BasePlugin.invokeHandlerCommand, BasePlugin.invokeHandlerMessage,
    BasePlugin.doHandlerCommand, BasePlugin.doHandlerMessage, routedBind, calls.
  destruct (isOutgoing message).
  - rewrite andb_false_r. cbn [settle fst].
    match goal with |- context [BasePlugin.handlerCommand ?a ?b ?c ?d] =>
      destruct (BasePlugin.handlerCommand a b c d) end; cbn [settle fst app].
    all: split; [intros call [<-|[]]; split; [reflexivity | eauto]|].
    all: split; [intros _; eauto|].
    all: split; [intros call []|right; reflexivity].
  - split; [intros call []|]. split; [discriminate|]. split; [|left; reflexivity].
    destruct (negb (BasePlugin.isCommand env this message)); cbn [andb negb];
      [|intros call []].
    destruct (BasePlugin.handleMessage this message); cbn [settle fst app];
      intros call [<-|[]]; split; reflexivity.
Qed.

(** ** The command prefixes of the configuration *)

Lemma splitAt_not_nil sep (s : jsstring) : splitAt sep s <> [].
Proof.
  destruct s as [|c s]; simpl; [discriminate|].
  destruct (c =? sep)%N; [discriminate|].
  destruct (splitAt sep s); discriminate.
Qed.

(** A piece holds characters of the string only, and never the separator. *)
Lemma splitAt_pieces sep (s piece : jsstring) (c : N) :
  In piece (splitAt sep s) -> In c piece -> In c s /\ c <> sep.
Proof.
  revert piece; induction s as [|x s IH]; simpl; intros piece.
  - intros [<-|[]] [].
  - destruct (x =? sep)%N eqn:E.
    + intros [<-|Hin] Hc; [destruct Hc|]. destruct (IH _ Hin Hc). tauto.
    + apply N.eqb_neq in E.
      destruct (splitAt sep s) as [|p ps] eqn:Es;
        [exfalso; exact (splitAt_not_nil _ _ Es)|].
      intros [<-|Hin] Hc.
      * destruct Hc as [<-|Hc]; [tauto|].
        destruct (IH p (or_introl eq_refl) Hc). tauto.
      * destruct (IH piece (or_intror Hin) Hc). tauto.
Qed.

Lemma splitAt_word sep (p : jsstring) : ~ In sep p -> splitAt sep p = [p].
Proof.
  induction p as [|c p IH]; simpl; [reflexivity|]. intros H.
  destruct (c =? sep)%N eqn:E; [apply N.eqb_eq in E; tauto|].
  rewrite IH by tauto. reflexivity.
Qed.

Lemma splitAt_app_sep sep (p rest : jsstring) :
  ~ In sep p -> splitAt sep (p ++ sep :: rest) = p :: splitAt sep rest.
Proof.
  induction p as [|c p IH]; simpl; intros H.
  - rewrite N.eqb_refl. reflexivity.
  - destruct (c =? sep)%N eqn:E; [apply N.eqb_eq in E; tauto|].
    rewrite IH by tauto. reflexivity.
Qed.

Lemma splitAt_joinWith sep (ps : list jsstring) :
  ps <> [] -> Forall (fun p => ~ In sep p) ps -> splitAt sep (joinWith sep ps) = ps.
Proof.
  induction ps as [|p ps IH]; [congruence|]. intros _ H.
  inversion H as [|? ? Hp Hps]; subst.
  destruct ps as [|q ps].
  - simpl. apply splitAt_word, Hp.
  - change (joinWith sep (p :: q :: ps)) with (p ++ sep :: joinWith sep (q :: ps)).
    rewrite splitAt_app_sep by exact Hp. rewrite IH; [reflexivity | discriminate | exact Hps].
Qed.

(** X4. Every command prefix that the configuration yields is a
    non-empty string without comma that [trim] leaves as it is, whatever
    the value of the environment variable. *)
Theorem parseCommandPrefixes_yields_words (value : option jsstring) :
  Forall isPrefixWord (parseCommandPrefixes value).
Proof.
  unfold parseCommandPrefixes. apply Forall_forall. intros p Hp.
  apply filter_In in Hp. destruct Hp as [Hp Hne].
  apply in_map_iff in Hp. destruct Hp as (piece & <- & Hpiece).
  split; [|split].
  - destruct (JsString.trim piece); [discriminate Hne | discriminate].
  - apply trim_idempotent.
  - intros Hc. apply trim_incl in Hc.
    destruct (splitAt_pieces _ _ _ _ Hpiece Hc) as [_ H]. apply H. reflexivity.
Qed.

(** X5. A list of such words, written with commas between them, is read
    back as the same list in the same order, duplicates included. *)
Theorem parseCommandPrefixes_reads_back_joined_words (prefixes : list jsstring) :
  Forall isPrefixWord prefixes ->
  parseCommandPrefixes (Some (joinWith comma prefixes)) = prefixes.
Proof.
  intros Hwords. unfold parseCommandPrefixes.
  destruct prefixes as [|p ps]; [reflexivity|].
  rewrite splitAt_joinWith; [|discriminate|].
  - induction Hwords as [|q qs (Hne & Htrim & _) _ IH]; [reflexivity|].
    cbn [map filter]. rewrite Htrim. destruct q; [congruence|].
    cbn [JsString.nonEmpty]. f_equal. exact IH.
  - eapply Forall_impl; [|exact Hwords]. intros q (_ & _ & H). exact H.
Qed.

(** X5 at the prefixes [/] and [!]. *)
Lemma parseCommandPrefixes_reads_back_witness :
  parseCommandPrefixes (Some (js "/,!")) = [js "/"; js "!"].
Proof.
  apply (@parseCommandPrefixes_reads_back_joined_words [js "/"; js "!"]).
  repeat constructor; try discriminate; intros [H|[]]; discriminate H.
Defined.

(** X6. A value made of commas and whitespace only yields no prefix at
    all, and without prefixes no text counts as a command: the generic
    handler then passes every message of another user to [handleMessage]. *)
Theorem no_prefix_means_no_command (value : jsstring) :
  (forall c, In c value -> c = comma \/ JsString.isWhiteSpace c = true) ->
  parseCommandPrefixes (Some value) = []
  /\ forall (this : BasePlugin.t) (message : MessageContext),
       calls (BasePlugin.doHandlerMessage
                {| COMMAND_PREFIXES := parseCommandPrefixes (Some value) |}
                this message)
       = if isOutgoing message then [] else [CallHandleMessage message].
Proof.
  intros Hvalue.
  assert (parseCommandPrefixes (Some value) = []) as Hnone.
  { unfold parseCommandPrefixes.
    assert (forall pieces,
              (forall piece, In piece pieces -> allSpace piece) ->
              filter JsString.nonEmpty (map JsString.trim pieces) = []) as Hall.
    { induction pieces as [|piece pieces IH]; intros H; [reflexivity|].
      cbn [map filter]. rewrite trim_allSpace by (apply H; left; reflexivity).
      apply IH. intros q Hq. apply H. right. exact Hq. }
    apply Hall. intros piece Hpiece. apply Forall_forall. intros c Hc.
    destruct (splitAt_pieces _ _ _ _ Hpiece Hc) as [Hin Hsep].
    destruct (Hvalue c Hin); [contradiction | assumption]. }
  split; [exact Hnone|]. intros this message. rewrite Hnone.
  unfold BasePlugin.doHandlerMessage, BasePlugin.isCommand, calls. cbn.
  destruct (isOutgoing message); reflexivity.
Qed.

(** X6 at the value [ , ,]. *)
Lemma no_prefix_means_no_command_witness : parseCommandPrefixes (Some (js " , ,")) = [].
Proof.
  apply (@no_prefix_means_no_command (js " , ,")).
  intros c Hc. vm_compute in Hc.
  repeat (destruct Hc as [<-|Hc]; [(left; reflexivity) || (right; reflexivity)|]).
  destruct Hc.
Defined.

(** ** The URL of a forced reload *)

Lemma lit_injective (a b : string) : js a = js b -> a = b.
Proof.
  unfold JsString.lit. intros H.
  rewrite <- (string_of_list_ascii_of_string a), <- (string_of_list_ascii_of_string b).
  f_equal. revert H. generalize (list_ascii_of_string b).
  induction (list_ascii_of_string a) as [|x l IH]; intros [|y l']; simpl;
    try discriminate; [reflexivity|].
  intros H. injection H as Hxy Hl. f_equal; [|apply IH; exact Hl].
  rewrite <- (ascii_N_embedding x), <- (ascii_N_embedding y), Hxy. reflexivity.
Qed.

Lemma ofNumber_injective (n m : N) : JsString.ofNumber n = JsString.ofNumber m -> n = m.
Proof.
  unfold JsString.ofNumber. intros H. apply lit_injective in H.
  assert (forall k, N.to_uint k <> Decimal.Nil) as Hnonnil
    by (intros [|p]; [discriminate | apply DecimalPos.Unsigned.to_uint_nonnil]).
  pose proof (NilZero.usu _ (Hnonnil n)) as Hn.
  pose proof (NilZero.usu _ (Hnonnil m)) as Hm.
  rewrite H, Hm in Hn. injection Hn as Hn.
  rewrite <- (DecimalN.Unsigned.of_to n), <- (DecimalN.Unsigned.of_to m), Hn. reflexivity.
Qed.

(** Whatever a call of [loadFromFile] does, it starts with the import of
    the module URL and imports nothing else. *)
Lemma loadFromFile_imports_once env world filePath options kind st :
  exists after,
    trace (snd (PluginManager.loadFromFile env world filePath options kind st))
    = trace st ++ DynamicImport (moduleUrlOf world filePath options) :: after
    /\ forall url, ~ In (DynamicImport url) after.
Proof.
  pose proof (loadFromFile_cases env world filePath options kind st) as H.
  destruct (PluginManager.loadFromFile env world filePath options kind st) as [[[]|e] st'];
    cbn [snd].
  - destruct H as (mod_ & instance & hs & _ & _ & _ & _ & _ & _ & _ & _ & _ & _ & Ht).
    eexists. split; [exact Ht|].
    intros url [Hin|Hin]; [discriminate Hin|].
    cbn [app] in Hin. apply in_app_iff in Hin. cbn [In] in Hin.
    destruct Hin as [Hin|[Hin|[]]]; [|discriminate Hin].
    apply in_map_iff in Hin. destruct Hin as (i & Hin & _). discriminate Hin.
  - destruct H as (_ & _ & _ & _ & t & F & Ht). exists t. split; [exact Ht|].
    intros url Hin. destruct F; simpl in Hin; try (intuition discriminate).
    destruct Hin as [Hin|Hin]; [discriminate Hin|].
    apply in_app_iff in Hin. cbn [In] in Hin.
    destruct Hin as [Hin|[Hin|Hin]]; [|discriminate Hin|];
      apply in_map_iff in Hin; destruct Hin as (i & Hin & _); discriminate Hin.
Qed.

(** X7. Every call of [loadFromFile] starts with one import and imports
    nothing else. An unforced load imports the file URL of the path as it
    is. A forced load imports a URL that is never the plain one, and two
    forced loads of one path import the same URL only when the clock
    shows the same number of milliseconds at both. *)
Theorem forced_load_imports_a_fresh_url
    (env : Env) (world1 world2 : World) (filePath : jsstring) (options : LoadOptions)
    (kind : PluginKind) (st1 st2 : State) :
  exists url1 url2 after1 after2,
    trace (snd (PluginManager.loadFromFile env world1 filePath options kind st1))
    = trace st1 ++ DynamicImport url1 :: after1
    /\ trace (snd (PluginManager.loadFromFile env world2 filePath options kind st2))
       = trace st2 ++ DynamicImport url2 :: after2
    /\ (forall url, ~ In (DynamicImport url) after1)
    /\ (isForced options = false -> url1 = pathToFileURL world1 filePath)
    /\ (isForced options = true ->
        url1 <> pathToFileURL world1 filePath
        /\ (pathToFileURL world1 filePath = pathToFileURL world2 filePath ->
            url1 = url2 -> now world1 = now world2)).
Proof.
  destruct (loadFromFile_imports_once env world1 filePath options kind st1)
    as (after1 & Ht1 & Honce).
  destruct (loadFromFile_imports_once env world2 filePath options kind st2)
    as (after2 & Ht2 & _).
  exists (moduleUrlOf world1 filePath options), (moduleUrlOf world2 filePath options),
    after1, after2.
  split; [exact Ht1|]. split; [exact Ht2|]. split; [exact Honce|].
  unfold moduleUrlOf. destruct (isForced options); split; try discriminate; auto.
  intros _. split.
  - intros H. rewrite <- (app_nil_r (pathToFileURL world1 filePath)) in H at 2.
    apply app_inv_head in H. discriminate H.
  - intros Hbase H. rewrite Hbase in H. apply app_inv_head in H.
    apply app_inv_head in H. apply ofNumber_injective. exact H.
Qed.

(** ** Registering handlers *)


(** ** Loading and unloading one file *)

Lemma delete_set_fresh (V : Type) (m : JsMap.t V) k v :
  JsMap.get k m = None -> JsMap.delete k (JsMap.set k v m) = m.
Proof.
  unfold JsMap.delete. induction m as [|[k' v'] m IH]; simpl.
  - rewrite eqb_refl. reflexivity.
  - destruct (JsString.eqb k k') eqn:E; [discriminate|].
    intros H. simpl. rewrite E. simpl. rewrite IH by assumption. reflexivity.
Qed.

(** X9. A call of [loadFromFile] that returns has created exactly one
    record: it carries the path and the kind given, sits under a name
    that was free and under the path, and every other entry of both maps
    is as before; each of its handlers is subscribed, and [onLoad] has
    returned. *)
Theorem loadFromFile_success_indexes_one_record
    env world filePath options kind st st' :
  PluginManager.loadFromFile env world filePath options kind st = (Ok tt, st') ->
  exists record,
    PluginRecord.filePath record = filePath
    /\ PluginRecord.kind record = kind
    /\ PluginRecord.name record = BasePlugin.name (PluginRecord.instance record)
    /\ JsMap.get (PluginRecord.name record) (plugins st) = None
    /\ JsMap.get (PluginRecord.name record) (plugins st') = Some record
    /\ JsMap.get filePath (pluginsByFile st') = Some record
    /\ (forall k, k <> PluginRecord.name record ->
          JsMap.get k (plugins st') = JsMap.get k (plugins st))
    /\ (forall p, p <> filePath ->
          JsMap.get p (pluginsByFile st') = JsMap.get p (pluginsByFile st))
    /\ (forall e, In e (PluginRecord.handlerIds record) -> subscribed (handler e) st')
    /\ BasePlugin.onLoad (PluginRecord.instance record) = Fulfilled tt.
Proof.
  intros Hload.
  pose proof (loadFromFile_cases env world filePath options kind st) as H.
  rewrite Hload in H.
  destruct H as (m & instance & hs & _ & _ & Hfree & Hhook & Hp & Hf & Hd & _).
  exists (recordOf instance filePath kind hs). cbn.
  repeat split; auto.
  - rewrite Hp. apply get_set_eq.
  - rewrite Hf. apply get_set_eq.
  - intros k Hk. rewrite Hp. apply get_set_neq. congruence.
  - intros p Hp'. rewrite Hf. apply get_set_neq. congruence.
  - intros e He. unfold subscribed. rewrite Hd, map_app, in_app_iff. right.
    unfold inDefaultGroup. rewrite map_map. cbn.
    apply in_map_iff. exists e. auto.
Qed.

(** X9 at the sample file [greeter.js]. *)
Lemma loadFromFile_success_witness :
  exists record,
    JsMap.get (js "/plugins/user/greeter.js")
      (pluginsByFile (Samples.loaded "/plugins/user/greeter.js")) = Some record
    /\ PluginRecord.kind record = user.
Proof.
  assert (fst (PluginManager.loadFromFile Samples.slashEnv Samples.world
                 (js "/plugins/user/greeter.js") Samples.notForced user
                 PluginManager.initial) = Ok tt) as Hload
    by (vm_compute; reflexivity).
  apply pair_of_fst in Hload.
  destruct (loadFromFile_success_indexes_one_record _ _ _ _ _ _ Hload)
    as (record & _ & Hkind & _ & _ & _ & Hpath & _).
  exists record. split; [exact Hpath | exact Hkind].
Defined.

(** X10. [unloadUser] refuses a name that has no record, and the name of
    a system plugin: it throws the error that names the reason and does
    nothing else (no handler is removed, no hook is called, both maps
    stay as they are). *)
Theorem unloadUser_refuses_unknown_and_system_plugins (name : jsstring) (st : State) :
  (JsMap.get name (plugins st) = None ->
   PluginManager.unloadUser name st = (Throw (PluginNotFound name), st))
  /\ (forall record,
        JsMap.get name (plugins st) = Some record ->
        PluginRecord.kind record = system ->
        PluginManager.unloadUser name st = (Throw (SystemPluginCannotBeUnloaded name), st)).
Proof.
  rewrite unloadUser_spec. split.
  - intros ->. reflexivity.
  - intros record -> ->. reflexivity.
Qed.

(** X11. Loading a file whose path is not indexed and then unloading the
    plugin by its name, when the unload hook returns, gives back both maps
    and the dispatcher exactly as they were before the load. *)
Theorem load_then_unload_restores_the_registry
    env world filePath options st st1 :
  wf st ->
  JsMap.get filePath (pluginsByFile st) = None ->
  PluginManager.loadFromFile env world filePath options user st = (Ok tt, st1) ->
  exists record,
    JsMap.get filePath (pluginsByFile st1) = Some record
    /\ (BasePlugin.onUnload (PluginRecord.instance record) = Fulfilled tt ->
        fst (PluginManager.unloadUser (PluginRecord.name record) st1) = Ok tt
        /\ plugins (snd (PluginManager.unloadUser (PluginRecord.name record) st1))
           = plugins st
        /\ pluginsByFile (snd (PluginManager.unloadUser (PluginRecord.name record) st1))
           = pluginsByFile st
        /\ dispatcher (snd (PluginManager.unloadUser (PluginRecord.name record) st1))
           = dispatcher st).
Proof.
  intros Hwf Hfresh Hload.
  pose proof (loadFromFile_cases env world filePath options user st) as H.
  rewrite Hload in H.
  destruct H as (m & instance & hs & _ & _ & Hfree & _ & Hp & Hf & Hd & Hids & _ & Hg & _).
  exists (recordOf instance filePath user hs).
  split; [rewrite Hf; apply get_set_eq|].
  intros Hhook. rewrite unloadUser_spec. cbn [recordOf PluginRecord.name].
  rewrite Hp, get_set_eq. cbn [PluginRecord.kind].
  rewrite unloadRecord_spec. cbn [PluginRecord.instance] in *. rewrite Hhook.
  cbn [fst snd plugins pluginsByFile dispatcher PluginRecord.name PluginRecord.filePath
       PluginRecord.handlerIds].
  rewrite Hp, Hf, Hd, !delete_set_fresh by assumption.
  repeat split. apply removeAll_appended; [exact Hg | rewrite Hids; apply seq_NoDup |].
  intros i Hi. rewrite Hids in Hi. apply in_seq in Hi.
  apply wf_fresh_idents; [exact Hwf | lia].
Qed.

(** X11 at the sample file [greeter.js]. *)
Lemma load_then_unload_witness :
  exists record,
    JsMap.get (js "/plugins/user/greeter.js")
      (pluginsByFile (Samples.loaded "/plugins/user/greeter.js")) = Some record.
Proof.
  assert (fst (PluginManager.loadFromFile Samples.slashEnv Samples.world
                 (js "/plugins/user/greeter.js") Samples.notForced user
                 PluginManager.initial) = Ok tt) as Hload
    by (vm_compute; reflexivity).
  apply pair_of_fst in Hload.
  destruct (load_then_unload_restores_the_registry _ _ _ _ wf_initial eq_refl Hload)
    as (record & Hrecord & _).
  exists record. exact Hrecord.
Defined.

(** ** Scanning a directory, step by step *)

Lemma loadDir_spec env world pluginDir kind options st :
  PluginManager.loadDir env world pluginDir kind options st =
  match access world pluginDir with
  | Rejected _ => (Ok tt, traced st [FsAccess pluginDir])
  | Fulfilled _ =>
      match readdir world pluginDir with
      | Rejected reason =>
          (Throw (Foreign reason), traced st [FsAccess pluginDir; FsReaddir pluginDir])
      | Fulfilled entries =>
          forEach entries (PluginManager.loadEntry env world pluginDir kind options)
            (traced st [FsAccess pluginDir; FsReaddir pluginDir])
      end
  end.
Proof.
  unfold PluginManager.loadDir, traced.
  unfold bind at 1, emit at 1, modify. cbn beta iota.
  destruct (access world pluginDir); cbn [negb]; [|reflexivity].
  unfold bind at 1, await. unfold bind at 1, emit, modify. cbn beta iota.
  cbn [plugins pluginsByFile dispatcher nextIdent trace].
  rewrite <- app_assoc.
  destruct (readdir world pluginDir); reflexivity.
Qed.

Lemma forEach_ext {A : Type} (body body' : A -> M unit) (xs : list A) st :
  (forall x s, body x s = body' x s) -> forEach xs body st = forEach xs body' st.
Proof.
  intros H. revert st; induction xs as [|x xs IH]; intros st; simpl; [reflexivity|].
  unfold bind. rewrite H. destruct (body' x st) as [[[]|e] s]; auto.
Qed.

Lemma forEach_filter {A : Type} (keep : A -> bool) (body : A -> M unit) (xs : list A) st :
  (forall x s, keep x = false -> body x s = (Ok tt, s)) ->
  forEach xs body st = forEach (filter keep xs) body st.
Proof.
  intros H. revert st; induction xs as [|x xs IH]; intros st; simpl; [reflexivity|].
  destruct (keep x) eqn:E; simpl; unfold bind.
  - destruct (body x st) as [[[]|e] s]; auto.
  - rewrite (H x st E). apply IH.
Qed.

Lemma forEach_app_throw {A : Type} (body : A -> M unit) (xs ys : list A) st e :
  fst (forEach xs body st) = Throw e ->
  forEach (xs ++ ys) body st = forEach xs body st.
Proof.
  revert st; induction xs as [|x xs IH]; intros st; simpl; [discriminate|].
  unfold bind. destruct (body x st) as [[[]|e'] s]; auto.
Qed.

Lemma loadEntry_withListing env world entries pluginDir kind options entry st :
  PluginManager.loadEntry env (withListing world entries) pluginDir kind options entry st
  = PluginManager.loadEntry env world pluginDir kind options entry st.
Proof. reflexivity. Qed.

Lemma loadEntry_skips env world pluginDir kind options entry st :
  isCandidate entry = false ->
  PluginManager.loadEntry env world pluginDir kind options entry st = (Ok tt, st).
Proof.
  unfold isCandidate. intros H. rewrite loadEntry_spec, H. reflexivity.
Qed.

Section ScanSteps.
Variable env : Env.
Variable world : World.
Variable pluginDir : jsstring.
Variable kind : PluginKind.
Variable options : LoadOptions.

(** X12. A directory that cannot be accessed is no error: the scan
    returns at once, having read and loaded nothing. A directory that can
    be accessed but not listed makes the scan throw the error of
    [readdir], again with nothing loaded. *)
Theorem loadDir_without_listing_loads_nothing (st : State) :
  (forall reason, access world pluginDir = Rejected reason ->
     PluginManager.loadDir env world pluginDir kind options st
     = (Ok tt, traced st [FsAccess pluginDir]))
  /\ (forall reason, access world pluginDir = Fulfilled tt ->
        readdir world pluginDir = Rejected reason ->
        PluginManager.loadDir env world pluginDir kind options st
        = (Throw (Foreign reason), traced st [FsAccess pluginDir; FsReaddir pluginDir])).
Proof.
  rewrite loadDir_spec. split.
  - intros reason ->. reflexivity.
  - intros reason -> ->. reflexivity.
Qed.

(** X13. A scan looks only at the entries that are files with a plugin
    file name: it does exactly what it would do in a directory that lists
    those entries alone, in the same order. Subdirectories and other
    files change nothing. *)
Theorem loadDir_sees_only_plugin_files (entries : list Dirent) (st : State) :
  readdir world pluginDir = Fulfilled entries ->
  PluginManager.loadDir env world pluginDir kind options st
  = PluginManager.loadDir env (withListing world (filter isCandidate entries))
      pluginDir kind options st.
Proof.
  intros Hlist. rewrite !loadDir_spec, Hlist. cbn [withListing access readdir].
  destruct (access world pluginDir); [|reflexivity].
  rewrite (forEach_filter isCandidate)
    by (intros x s; apply loadEntry_skips).
  apply forEach_ext. intros x s. symmetry. apply loadEntry_withListing.
Qed.

(** X14. A scan stops at the first file whose load throws: when the scan
    of the first entries of a listing throws, the scan of the whole
    listing throws the same error and ends in the same state, so the
    entries after the failing one are not even looked at. *)
Theorem loadDir_stops_at_the_first_failure
    (before after : list Dirent) (st : State) (e : Error) :
  readdir world pluginDir = Fulfilled (before ++ after) ->
  fst (PluginManager.loadDir env (withListing world before) pluginDir kind options st)
  = Throw e ->
  PluginManager.loadDir env world pluginDir kind options st
  = PluginManager.loadDir env (withListing world before) pluginDir kind options st.
Proof.
  intros Hlist. rewrite !loadDir_spec, Hlist. cbn [withListing access readdir].
  destruct (access world pluginDir); [|discriminate].
  rewrite (forEach_ext
             (PluginManager.loadEntry env (withListing world before) pluginDir kind options)
             (PluginManager.loadEntry env world pluginDir kind options))
    by (intros; apply loadEntry_withListing).
  intros Hthrow. apply (forEach_app_throw _ _ _ _ Hthrow).
Qed.

Lemma loadFromFile_keeps_paths filePath st p :
  JsMap.has p (pluginsByFile st) = true ->
  JsMap.has p (pluginsByFile
                 (snd (PluginManager.loadFromFile env world filePath options kind st)))
  = true.
Proof.
  intros Hp.
  pose proof (loadFromFile_cases env world filePath options kind st) as H.
  destruct (PluginManager.loadFromFile env world filePath options kind st)
    as [[[]|e] st']; cbn [snd].
  - destruct H as (m & instance & hs & _ & _ & _ & _ & _ & Hf & _). rewrite Hf.
    apply has_true. destruct (JsString.eqb filePath p) eqn:E.
    + apply eqb_eq in E. subst. rewrite get_set_eq. eauto.
    + apply eqb_neq in E. rewrite get_set_neq by assumption. apply has_true. exact Hp.
  - destruct H as (_ & Hf & _). rewrite Hf. exact Hp.
Qed.

Lemma loadEntry_keeps_paths entry st p :
  JsMap.has p (pluginsByFile st) = true ->
  JsMap.has p (pluginsByFile
                 (snd (PluginManager.loadEntry env world pluginDir kind options entry st)))
  = true.
Proof.
  intros Hp. rewrite loadEntry_spec.
  destruct (isFile entry && isPluginFile (entryName entry)
            && negb (JsMap.has (join world pluginDir (entryName entry)) (pluginsByFile st)));
    [apply loadFromFile_keeps_paths|]; exact Hp.
Qed.

Lemma loadEntry_indexes_candidate entry st :
  isCandidate entry = true ->
  fst (PluginManager.loadEntry env world pluginDir kind options entry st) = Ok tt ->
  JsMap.has (join world pluginDir (entryName entry))
    (pluginsByFile (snd (PluginManager.loadEntry env world pluginDir kind options entry st)))
  = true.
Proof.
  unfold isCandidate. intros Hc. rewrite loadEntry_spec, Hc. cbn [andb].
  destruct (JsMap.has (join world pluginDir (entryName entry)) (pluginsByFile st)) eqn:E;
    cbn [negb]; [intros _; exact E|].
  pose proof (loadFromFile_cases env world (join world pluginDir (entryName entry))
                options kind st) as H.
  destruct (PluginManager.loadFromFile env world (join world pluginDir (entryName entry))
              options kind st) as [[[]|e] st']; cbn [fst snd]; [|discriminate].
  intros _. destruct H as (m & instance & hs & _ & _ & _ & _ & _ & Hf & _).
  rewrite Hf. apply has_true. rewrite get_set_eq. eauto.
Qed.

(** X15. When a scan returns, every file of the listing that has a plugin
    file name has a record under its path, whether this scan loaded it or
    an earlier one did. *)
Theorem loadDir_success_indexes_every_plugin_file (entries : list Dirent) (st : State) :
  access world pluginDir = Fulfilled tt ->
  readdir world pluginDir = Fulfilled entries ->
  fst (PluginManager.loadDir env world pluginDir kind options st) = Ok tt ->
  forall entry,
    In entry entries -> isCandidate entry = true ->
    JsMap.has (join world pluginDir (entryName entry))
      (pluginsByFile (snd (PluginManager.loadDir env world pluginDir kind options st)))
    = true.
Proof.
  intros Haccess Hlist. rewrite loadDir_spec, Haccess, Hlist.
  generalize (traced st [FsAccess pluginDir; FsReaddir pluginDir]). clear st Hlist.
  induction entries as [|x xs IH]; intros st Hok entry Hin Hc; [destruct Hin|].
  cbn [forEach] in *. unfold bind in *.
  pose proof (@loadEntry_indexes_candidate x st) as Hx.
  pose proof (fun p => @loadEntry_keeps_paths x st p) as Hkeep.
  destruct (PluginManager.loadEntry env world pluginDir kind options x st)
    as [[[]|e] st1]; cbn [fst snd] in *; [|discriminate].
  destruct Hin as [->|Hin].
  - specialize (Hx Hc eq_refl).
    pose proof (forEach_invariant
                  (fun s => JsMap.has (join world pluginDir (entryName entry))
                              (pluginsByFile s) = true)
                  (PluginManager.loadEntry env world pluginDir kind options) xs) as Hmono.
    apply Hmono; [|exact Hx]. intros y s. apply loadEntry_keeps_paths.
  - apply IH; assumption.
Qed.

End ScanSteps.

(** X13 at a directory that holds a subdirectory, a text file and
    [ping.ts]. *)
Lemma loadDir_sees_only_plugin_files_witness :
  PluginManager.loadDir Samples.slashEnv
    (Samples.worldWith [ {| entryName := js "lib.js"; isFile := false |};
                         Samples.file "notes.txt"; Samples.file "ping.ts" ]
       (Fulfilled tt))
    Samples.userDir user Samples.notForced PluginManager.initial
  = PluginManager.loadDir Samples.slashEnv
      (withListing
         (Samples.worldWith [ {| entryName := js "lib.js"; isFile := false |};
                              Samples.file "notes.txt"; Samples.file "ping.ts" ]
            (Fulfilled tt))
         (filter isCandidate
            [ {| entryName := js "lib.js"; isFile := false |};
              Samples.file "notes.txt"; Samples.file "ping.ts" ]))
      Samples.userDir user Samples.notForced PluginManager.initial.
Proof.
  apply (@loadDir_sees_only_plugin_files Samples.slashEnv
           (Samples.worldWith [ {| entryName := js "lib.js"; isFile := false |};
                                Samples.file "notes.txt"; Samples.file "ping.ts" ]
              (Fulfilled tt))
           Samples.userDir user Samples.notForced).
  reflexivity.
Defined.

(** X14 at a directory that lists [faulty.ts] before [ping.ts]: the scan
    throws the error of [faulty.ts] and [ping.ts] is not loaded. *)
Lemma loadDir_stops_at_the_first_failure_witness :
  fst (PluginManager.loadDir Samples.slashEnv
         (Samples.worldWith [Samples.file "faulty.ts"; Samples.file "ping.ts"] (Fulfilled tt))
         Samples.userDir user Samples.notForced PluginManager.initial)
  = Throw (Foreign (js "load failed"))
  /\ plugins (snd (PluginManager.loadDir Samples.slashEnv
                     (Samples.worldWith [Samples.file "faulty.ts"; Samples.file "ping.ts"]
                        (Fulfilled tt))
                     Samples.userDir user Samples.notForced PluginManager.initial))
     = [].
Proof.
  assert (fst (PluginManager.loadDir Samples.slashEnv
                 (withListing
                    (Samples.worldWith [Samples.file "faulty.ts"; Samples.file "ping.ts"]
                       (Fulfilled tt))
                    [Samples.file "faulty.ts"])
                 Samples.userDir user Samples.notForced PluginManager.initial)
          = Throw (Foreign (js "load failed"))) as Hthrow
    by (vm_compute; reflexivity).
  rewrite (@loadDir_stops_at_the_first_failure Samples.slashEnv
             (Samples.worldWith [Samples.file "faulty.ts"; Samples.file "ping.ts"]
                (Fulfilled tt))
             Samples.userDir user Samples.notForced
             [Samples.file "faulty.ts"] [Samples.file "ping.ts"]
             PluginManager.initial (Foreign (js "load failed")) eq_refl Hthrow).
  split; vm_compute; reflexivity.
Defined.

(** X15 at the sample directory. *)
Lemma loadDir_success_indexes_witness :
  JsMap.has (js "/plugins/user/ping.ts")
    (pluginsByFile
       (snd (PluginManager.loadDir Samples.slashEnv Samples.world Samples.userDir
               user Samples.notForced PluginManager.initial)))
  = true.
Proof.
  assert (fst (PluginManager.loadDir Samples.slashEnv Samples.world Samples.userDir
                 user Samples.notForced PluginManager.initial) = Ok tt) as Hok
    by (vm_compute; reflexivity).
  apply (@loadDir_success_indexes_every_plugin_file Samples.slashEnv Samples.world
           Samples.userDir user Samples.notForced
           [Samples.file "ping.ts"; Samples.file "greeter.js"] PluginManager.initial
           eq_refl eq_refl Hok (Samples.file "ping.ts")).
  - left. reflexivity.
  - vm_compute. reflexivity.
Defined.

(** ** Installing a file, step by step *)

Section InstallSteps.
Variable env : Env.
Variable userPluginDir : jsstring.
Variable world : World.
Variable sourcePath : jsstring.

Let fileName : jsstring := basename world sourcePath.
Let targetPath : jsstring := join world userPluginDir fileName.

Lemma installUserPluginFromFile_spec st :
  PluginManager.installUserPluginFromFile env userPluginDir world sourcePath st =
  match mkdir world userPluginDir with
  | Rejected reason => (Throw (Foreign reason), traced st [FsMkdir userPluginDir])
  | Fulfilled _ =>
      if isPluginFile fileName then
        match copyFile world sourcePath targetPath with
        | Rejected reason =>
            (Throw (Foreign reason),
             traced st [FsMkdir userPluginDir; FsCopyFile sourcePath targetPath])
        | Fulfilled _ =>
            match PluginManager.loadFromFile env world targetPath
                    {| forceReload := Some false |} user
                    (traced st [FsMkdir userPluginDir; FsCopyFile sourcePath targetPath])
            with
            | (Ok _, st') => (Ok targetPath, st')
            | (Throw e, st') => (Throw e, st')
            end
        end
      else (Throw (InvalidPluginFile fileName), traced st [FsMkdir userPluginDir])
  end.
Proof.
  unfold PluginManager.installUserPluginFromFile, traced, targetPath, fileName.
  unfold bind at 1, await. unfold bind at 1, emit, modify. cbn beta iota.
  destruct (mkdir world userPluginDir); cbn [settle]; [|reflexivity].
  destruct (isPluginFile (basename world sourcePath)); cbn [negb]; [|reflexivity].
  unfold bind at 1. unfold bind at 1. cbn beta iota.
  cbn [plugins pluginsByFile dispatcher nextIdent trace]. rewrite <- app_assoc.
  destruct (copyFile world sourcePath (join world userPluginDir (basename world sourcePath)));
    cbn [settle]; [|reflexivity].
  unfold bind, ret. cbn [app].
  destruct (PluginManager.loadFromFile _ _ _ _ _ _) as [[[]|e] st']; reflexivity.
Qed.

(** X16. When [installUserPluginFromFile] returns, it returns the path
    made of the user directory and the base name of the source, which is a
    plugin file name; the file was copied there after the directory was
    created and before the import, which is not forced; and the plugin is
    recorded under that path and under its name, with the kind [user]. *)
Theorem installUserPluginFromFile_success_records_the_copy st path st' :
  PluginManager.installUserPluginFromFile env userPluginDir world sourcePath st
  = (Ok path, st') ->
  path = join world userPluginDir (basename world sourcePath)
  /\ isPluginFile (basename world sourcePath) = true
  /\ (exists record,
        JsMap.get path (pluginsByFile st') = Some record
        /\ JsMap.get (PluginRecord.name record) (plugins st') = Some record
        /\ PluginRecord.kind record = user
        /\ PluginRecord.filePath record = path)
  /\ exists t,
       trace st' = trace st ++
         FsMkdir userPluginDir :: FsCopyFile sourcePath path
         :: DynamicImport (pathToFileURL world path) :: t.
Proof.
  rewrite installUserPluginFromFile_spec.
  destruct (mkdir world userPluginDir); [|discriminate].
  destruct (isPluginFile fileName) eqn:Hname; [|discriminate].
  destruct (copyFile world sourcePath targetPath); [|discriminate].
  pose proof (loadFromFile_cases env world targetPath {| forceReload := Some false |} user
                (traced st [FsMkdir userPluginDir; FsCopyFile sourcePath targetPath])) as H.
  destruct (PluginManager.loadFromFile env world targetPath {| forceReload := Some false |}
              user (traced st [FsMkdir userPluginDir; FsCopyFile sourcePath targetPath]))
    as [[[]|e] s]; [|discriminate].
  intros Heq. injection Heq as <- <-.
  destruct H as (m & instance & hs & _ & _ & _ & _ & Hp & Hf & _ & _ & _ & _ & Ht).
  split; [reflexivity|]. split; [exact Hname|]. split.
  - exists (recordOf instance targetPath user hs). cbn.
    rewrite Hp, Hf, !get_set_eq. auto.
  - eexists. rewrite Ht. cbn [traced trace]. rewrite <- app_assoc. reflexivity.
Qed.

(** X17. When the copy fails, as it does when the user directory already
    holds a file of that name, [installUserPluginFromFile] throws the
    error of the copy and imports nothing. When the copy succeeds and the
    load of the copied file throws, the call throws the error of the load.
    In both cases the maps and the dispatcher are as they were. *)
Theorem installUserPluginFromFile_failure_after_validation st :
  wf st ->
  mkdir world userPluginDir = Fulfilled tt ->
  isPluginFile (basename world sourcePath) = true ->
  (forall reason,
     copyFile world sourcePath (join world userPluginDir (basename world sourcePath))
     = Rejected reason ->
     PluginManager.installUserPluginFromFile env userPluginDir world sourcePath st
     = (Throw (Foreign reason),
        traced st [FsMkdir userPluginDir;
                   FsCopyFile sourcePath
                     (join world userPluginDir (basename world sourcePath))]))
  /\ (forall e st',
        PluginManager.installUserPluginFromFile env userPluginDir world sourcePath st
        = (Throw e, st') ->
        plugins st' = plugins st /\ pluginsByFile st' = pluginsByFile st
        /\ dispatcher st' = dispatcher st).
Proof.
  intros Hwf Hmkdir Hname. rewrite installUserPluginFromFile_spec, Hmkdir.
  unfold targetPath. unfold fileName. rewrite Hname. split.
  - intros reason ->. reflexivity.
  - intros e st'.
    destruct (copyFile world sourcePath (join world userPluginDir (basename world sourcePath))).
    + pose proof (@loadFromFile_cases env world
                    (join world userPluginDir (basename world sourcePath))
                    {| forceReload := Some false |} user
                    (traced st [FsMkdir userPluginDir;
                                FsCopyFile sourcePath
                                  (join world userPluginDir (basename world sourcePath))]))
        as H.
      destruct (PluginManager.loadFromFile _ _ _ _ _ _) as [[[]|e'] s]; [discriminate|].
      intros Heq. injection Heq as <- <-.
      destruct H as (Hp & Hf & Hd & _).
      repeat split; auto. apply Hd.
      destruct Hwf as [K1 K2 K3 K4 K5 K6 K7]. constructor; assumption.
    + intros Heq. injection Heq as <- <-. repeat split.
Qed.

End InstallSteps.

(** X16 at the sample directory: [/tmp/ping.ts] is installed. *)
Lemma installUserPluginFromFile_success_witness :
  JsMap.has (js "/plugins/user/ping.ts")
    (pluginsByFile
       (snd (PluginManager.installUserPluginFromFile Samples.slashEnv Samples.userDir
               Samples.world (js "/tmp/ping.ts") PluginManager.initial)))
  = true.
Proof.
  assert (fst (PluginManager.installUserPluginFromFile Samples.slashEnv Samples.userDir
                 Samples.world (js "/tmp/ping.ts") PluginManager.initial)
          = Ok (js "/plugins/user/ping.ts")) as Hok
    by (vm_compute; reflexivity).
  apply pair_of_fst in Hok.
  destruct (installUserPluginFromFile_success_records_the_copy _ _ _ _ _ Hok)
    as (_ & _ & (record & Hrecord & _) & _).
  apply has_true. exists record. exact Hrecord.
Defined.

(** X17 at the sample directory: installing [/tmp/faulty.ts], whose load
    hook throws, leaves the registry empty. *)
Lemma installUserPluginFromFile_failure_witness :
  plugins (snd (PluginManager.installUserPluginFromFile Samples.slashEnv Samples.userDir
                  Samples.world (js "/tmp/faulty.ts") PluginManager.initial))
  = [].
Proof.
  assert (fst (PluginManager.installUserPluginFromFile Samples.slashEnv Samples.userDir
                 Samples.world (js "/tmp/faulty.ts") PluginManager.initial)
          = Throw (Foreign (js "load failed"))) as Hthrow
    by (vm_compute; reflexivity).
  apply pair_of_fst in Hthrow.
  assert (isPluginFile (basename Samples.world (js "/tmp/faulty.ts")) = true) as Hname
    by (vm_compute; reflexivity).
  destruct (@installUserPluginFromFile_failure_after_validation Samples.slashEnv
              Samples.userDir Samples.world (js "/tmp/faulty.ts") PluginManager.initial
              wf_initial eq_refl Hname) as (_ & Hfail).
  destruct (Hfail _ _ Hthrow) as (Hp & _). exact Hp.
Defined.

(** ** Unloading all user plugins *)

Lemma unloadUserAll_loop st :
  PluginManager.unloadUserAll st = forEach (plugins st) unloadTurn st.
Proof. reflexivity. Qed.

Lemma unloadRecord_plugins record s k r :
  JsMap.get k (plugins (snd (PluginManager.unloadRecord record s))) = Some r ->
  JsMap.get k (plugins s) = Some r
  /\ (fst (PluginManager.unloadRecord record s) = Ok tt -> k <> PluginRecord.name record).
Proof.
  rewrite unloadRecord_spec.
  destruct (BasePlugin.onUnload (PluginRecord.instance record)) as [[]|reason];
    cbn [fst snd plugins].
  - destruct (JsString.eqb (PluginRecord.name record) k) eqn:E.
    + apply eqb_eq in E. subst k. rewrite get_delete_eq. discriminate.
    + apply eqb_neq in E. rewrite get_delete_neq by assumption. intros H.
      split; [exact H | congruence].
  - intros H. split; [exact H | discriminate].
Qed.

Lemma unloadTurn_spec entry s :
  unloadTurn entry s =
  if JsMap.has (fst entry) (plugins s)
  then match PluginRecord.kind (snd entry) with
       | system => (Ok tt, s)
       | user => PluginManager.unloadRecord (snd entry) s
       end
  else (Ok tt, s).
Proof.
  unfold unloadTurn, bind, gets. cbn beta iota.
  destruct (JsMap.has (fst entry) (plugins s)); cbn [negb]; [|reflexivity].
  destruct (PluginRecord.kind (snd entry)); reflexivity.
Qed.

Lemma unloadTurns st todo :
  wf st ->
  incl todo (plugins st) ->
  forall s,
    unloadingFrom st s ->
    unloadingFrom st (snd (forEach todo unloadTurn s))
    /\ ((forall k r, JsMap.get k (plugins s) = Some r -> PluginRecord.kind r = user ->
           In (k, r) todo) ->
        fst (forEach todo unloadTurn s) = Ok tt ->
        forall k r,
          JsMap.get k (plugins (snd (forEach todo unloadTurn s))) = Some r ->
          PluginRecord.kind r = system).
Proof.
  intros Hwf0. induction todo as [|entry todo IH]; intros Hsub s HP.
  - split; [exact HP|]. cbn. intros Hleft _ k r Hr.
    destruct (PluginRecord.kind r) eqn:E; [reflexivity|].
    destruct (Hleft k r Hr E).
  - assert (incl todo (plugins st)) as Hsub'
      by (intros x Hx; apply Hsub; right; assumption).
    assert (JsMap.get (fst entry) (plugins st) = Some (snd entry)) as Hentry.
    { destruct entry as [k r]. apply In_get; [exact (wf_keys Hwf0)|].
      apply Hsub. left. reflexivity. }
    specialize (IH Hsub').
    cbn [forEach]. unfold bind. rewrite unloadTurn_spec.
    destruct (JsMap.has (fst entry) (plugins s)) eqn:Elive.
    2:{ destruct (IH s HP) as [IH1 IH2]. split; [exact IH1|].
        intros Hleft. apply IH2. intros k r Hr Hu.
        destruct (Hleft k r Hr Hu) as [->|Hin]; [|exact Hin].
        apply has_false in Elive. cbn in Elive. congruence. }
    destruct (PluginRecord.kind (snd entry)) eqn:Ekind.
    { destruct (IH s HP) as [IH1 IH2]. split; [exact IH1|].
      intros Hleft. apply IH2. intros k r Hr Hu.
      destruct (Hleft k r Hr Hu) as [->|Hin]; [|exact Hin].
      cbn in Ekind. congruence. }
    destruct HP as ([Hwf Hidx] & Hsubmap & Hsystem).
    apply has_true in Elive. destruct Elive as [r0 Hr0].
    pose proof (Hsubmap _ _ Hr0) as Hr0'. rewrite Hentry in Hr0'. injection Hr0' as <-.
    pose proof (wf_names Hwf _ Hr0) as Hname.
    assert (JsMap.get (PluginRecord.name (snd entry)) (plugins s) = Some (snd entry))
      as Hlive by (rewrite Hname; exact Hr0).
    assert (unloadingFrom st (snd (PluginManager.unloadRecord (snd entry) s))) as HP'.
    { split; [split|split].
      - apply unloadRecord_wf; assumption.
      - apply unloadRecord_indexedByFile; assumption.
      - intros k r Hr. apply unloadRecord_plugins in Hr. apply Hsubmap, Hr.
      - intros k r Hr Hs. specialize (Hsystem k r Hr Hs).
        rewrite unloadRecord_spec.
        destruct (BasePlugin.onUnload (PluginRecord.instance (snd entry))) as [[]|reason];
          cbn [snd plugins]; [|exact Hsystem].
        rewrite get_delete_neq; [exact Hsystem|].
        intros Heq. rewrite Heq in Hlive. congruence. }
    pose proof (fun k r => @unloadRecord_plugins (snd entry) s k r) as Hdel.
    destruct (PluginManager.unloadRecord (snd entry) s) as [[[]|e] s'];
      cbn [fst snd] in *.
    + destruct (IH s' HP') as [IH1 IH2]. split; [exact IH1|].
      intros Hleft. apply IH2. intros k r Hr Hu.
      destruct (Hdel k r Hr) as [Hbefore Hne].
      destruct (Hleft k r Hbefore Hu) as [->|Hin]; [|exact Hin].
      exfalso. apply (Hne eq_refl). cbn. symmetry. exact Hname.
    + split; [exact HP' | discriminate].
Qed.

Lemma unloadUserAll_keeps_system st :
  wf st -> indexedByFile st ->
  unloadingFrom st (snd (PluginManager.unloadUserAll st))
  /\ (fst (PluginManager.unloadUserAll st) = Ok tt ->
      forall k r,
        JsMap.get k (plugins (snd (PluginManager.unloadUserAll st))) = Some r ->
        PluginRecord.kind r = system).
Proof.
  intros Hwf Hidx. rewrite unloadUserAll_loop.
  destruct (@unloadTurns st (plugins st) Hwf (incl_refl _) st) as [H1 H2].
  - split; [split; assumption | split; auto].
  - split; [exact H1|]. apply H2. intros k r Hr _. apply get_In. exact Hr.
Qed.



(** ** Start-up and reload *)

Lemma loadFromFile_keeps_names env world filePath options kind st k r :
  JsMap.get k (plugins st) = Some r ->
  JsMap.get k (plugins (snd (PluginManager.loadFromFile env world filePath options kind st)))
  = Some r.
Proof.
  intros Hr.
  pose proof (loadFromFile_cases env world filePath options kind st) as H.
  destruct (PluginManager.loadFromFile env world filePath options kind st)
    as [[[]|e] st']; cbn [snd].
  - destruct H as (m & instance & hs & _ & _ & Hfree & _ & Hp & _). rewrite Hp.
    rewrite get_set_neq; [exact Hr | congruence].
  - destruct H as (Hp & _). rewrite Hp. exact Hr.
Qed.

Lemma loadDir_keeps_names env world pluginDir kind options st k r :
  JsMap.get k (plugins st) = Some r ->
  JsMap.get k (plugins (snd (PluginManager.loadDir env world pluginDir kind options st)))
  = Some r.
Proof.
  intros Hr. rewrite loadDir_spec.
  destruct (access world pluginDir); [|exact Hr].
  destruct (readdir world pluginDir); [|exact Hr].
  apply (forEach_invariant (fun s => JsMap.get k (plugins s) = Some r)); [|exact Hr].
  intros entry s Hs. rewrite loadEntry_spec.
  destruct (isFile entry && isPluginFile (entryName entry)
            && negb (JsMap.has (join world pluginDir (entryName entry)) (pluginsByFile s)));
    [apply loadFromFile_keeps_names|]; exact Hs.
Qed.

(** X19. The start-up load and the reload of the user plugins keep every
    system plugin that is registered: after [loadAll], and after
    [reloadUser], each system record is still the entry of its name,
    the same record as before, whatever the directories hold and however
    the call ends. *)
Theorem loadAll_and_reloadUser_keep_system_plugins
    env systemPluginDir userPluginDir world st k r :
  wf st -> indexedByFile st ->
  JsMap.get k (plugins st) = Some r ->
  PluginRecord.kind r = system ->
  JsMap.get k (plugins (snd (PluginManager.loadAll env systemPluginDir userPluginDir
                               world st))) = Some r
  /\ JsMap.get k (plugins (snd (PluginManager.reloadUser env userPluginDir world st)))
     = Some r.
Proof.
  intros Hwf Hidx Hr Hsystem.
  destruct (unloadUserAll_keeps_system Hwf Hidx) as ((_ & _ & Hkept) & _).
  specialize (Hkept k r Hr Hsystem).
  split.
  - unfold PluginManager.loadAll.
    apply (bind_invariant (fun s => JsMap.get k (plugins s) = Some r)); [exact Hkept|].
    intros _ s Hs.
    apply (bind_invariant (fun s => JsMap.get k (plugins s) = Some r)).
    + apply loadDir_keeps_names. exact Hs.
    + intros _ s1 Hs1. unfold PluginManager.loadUser. cbn [isForced forceReload].
      apply (bind_invariant (fun s => JsMap.get k (plugins s) = Some r)); [exact Hs1|].
      intros _ s2. apply loadDir_keeps_names.
  - unfold PluginManager.reloadUser, PluginManager.loadUser. cbn [isForced forceReload].
    apply (bind_invariant (fun s => JsMap.get k (plugins s) = Some r)); [exact Hkept|].
    intros _ s. apply loadDir_keeps_names.
Qed.

Lemma systemSample_is_loaded :
  snd (PluginManager.loadFromFile Samples.slashEnv Samples.world SystemSample.filePath
         Samples.notForced system PluginManager.initial)
  = SystemSample.loaded.
Proof. vm_compute. reflexivity. Qed.

Lemma invariants_systemSample : wf SystemSample.loaded /\ indexedByFile SystemSample.loaded.
Proof.
  rewrite <- systemSample_is_loaded. split.
  - apply loadFromFile_wf, wf_initial.
  - apply loadFromFile_indexedByFile; [reflexivity | intros k r H; discriminate H].
Qed.

(** X19 at a registry that holds a system plugin: a reload of the user
    plugins keeps its record. *)
Lemma reloadUser_keeps_system_witness :
  JsMap.get (js "greeter")
    (plugins (snd (PluginManager.reloadUser Samples.slashEnv Samples.userDir Samples.world
                     SystemSample.loaded)))
  = Some SystemSample.record.
Proof.
  apply (proj2 (@loadAll_and_reloadUser_keep_system_plugins Samples.slashEnv
                  Samples.systemDir Samples.userDir Samples.world SystemSample.loaded
                  (js "greeter") SystemSample.record
                  (proj1 invariants_systemSample) (proj2 invariants_systemSample)
                  eq_refl eq_refl)).
Defined.


(** ** The order of [list()] *)

Lemma set_fresh (V : Type) (m : JsMap.t V) k v :
  JsMap.get k m = None -> JsMap.set k v m = m ++ [(k, v)].
Proof.
  induction m as [|[k' v'] m IH]; simpl; [reflexivity|].
  destruct (JsString.eqb k k'); [discriminate|].
  intros H. rewrite IH by assumption. reflexivity.
Qed.

Lemma values_delete_by_name (m : JsMap.t PluginRecord.t) name :
  (forall k r, In (k, r) m -> PluginRecord.name r = k) ->
  JsMap.values (JsMap.delete name m)
  = filter (fun r => negb (JsString.eqb name (PluginRecord.name r))) (JsMap.values m).
Proof.
  unfold JsMap.values, JsMap.delete. induction m as [|[k r] m IH]; intros H; [reflexivity|].
  assert (IH' := IH (fun k' r' Hin => H k' r' (or_intror Hin))).
  cbn [filter map fst snd]. rewrite (H k r (or_introl eq_refl)).
  destruct (JsString.eqb name k); cbn [negb map snd]; rewrite IH'; reflexivity.
Qed.

(** X21. [list()] gives the plugins in the order in which they were
    loaded: a load that returns puts its record after all the others, and
    an unload by name that returns takes out the record of that name and
    leaves the others in their order. *)
Theorem list_is_in_load_order (st : State) :
  (forall env world filePath options kind st',
     PluginManager.loadFromFile env world filePath options kind st = (Ok tt, st') ->
     exists record,
       PluginManager.list st' = PluginManager.list st ++ [record]
       /\ PluginRecord.filePath record = filePath /\ PluginRecord.kind record = kind)
  /\ (forall name,
        wf st ->
        fst (PluginManager.unloadUser name st) = Ok tt ->
        PluginManager.list (snd (PluginManager.unloadUser name st))
        = filter (fun r => negb (JsString.eqb name (PluginRecord.name r)))
            (PluginManager.list st)).
Proof.
  split.
  - intros env world filePath options kind st' Hload.
    pose proof (loadFromFile_cases env world filePath options kind st) as H.
    rewrite Hload in H. destruct H as (m & instance & hs & _ & _ & Hfree & _ & Hp & _).
    exists (recordOf instance filePath kind hs). unfold PluginManager.list, JsMap.values.
    rewrite Hp, set_fresh by exact Hfree. rewrite map_app. auto.
  - intros name Hwf. rewrite unloadUser_spec.
    destruct (JsMap.get name (plugins st)) as [record|] eqn:Hget; [|discriminate].
    destruct (PluginRecord.kind record); [discriminate|].
    rewrite unloadRecord_spec.
    destruct (BasePlugin.onUnload (PluginRecord.instance record)) as [[]|reason];
      [|discriminate].
    intros _. unfold PluginManager.list. cbn [snd plugins].
    rewrite (wf_names Hwf _ Hget). apply values_delete_by_name.
    intros k r Hin. apply (wf_names Hwf). apply In_get; [exact (wf_keys Hwf) | exact Hin].
Qed.
